(** * bot.py: a Telegram relay for Terabox share links

    A shallow embedding of [src/bot.py] and the properties its specification
    states about it.

    - Python [str] values are lists of Unicode code points.
    - The three [re] patterns of the program are terms of a small regular
      expression syntax, run by a backtracking matcher with the priorities of
      Python's [re] (greedy, lazy, leftmost).
    - The chat platform, the HTTP session and the local file system are an
      explicit world: a store of files and a trace of the calls made.  What
      the network and the chat platform answer, and whether a call raises, is
      given by an environment the theorems quantify over.
    - An exception carries its text and as much of its class as the
      [except Exception] clauses of the program tell apart. *)

From Stdlib Require Import NArith ZArith List String Ascii Lia Bool.
From stdpp Require Import base option list gmap.
Import ListNotations.

(** ** Strings *)

Definition char := N.
Definition str := list char.

(** An ASCII literal of the source as a [str]. *)
Definition py (s : string) : str := map N_of_ascii (list_ascii_of_string s).

(** The double quote, written by its code point. *)
Definition dq : char := 34%N.

Section Chars.
Local Open Scope N_scope.

Definition in_range (lo hi c : char) : bool := (lo <=? c) && (c <=? hi).

(** [str.isspace] on one code point: the Unicode white space of CPython. *)
Definition isspace (c : char) : bool :=
  in_range 9 13 c || in_range 28 32 c || (c =? 133) || (c =? 160)
  || (c =? 5760) || in_range 8192 8202 c || (c =? 8232) || (c =? 8233)
  || (c =? 8239) || (c =? 8287) || (c =? 12288).

(** The set [[a-zA-Z0-9_-]]. *)
Definition token_char (c : char) : bool :=
  in_range 97 122 c || in_range 65 90 c || in_range 48 57 c
  || (c =? 95) || (c =? 45).

(** The negated set of the download pattern: anything but a double
    quote. *)
Definition not_dq (c : char) : bool := negb (c =? dq).

(** [.] without DOTALL: anything but a line feed. *)
Definition any_char (c : char) : bool := negb (c =? 10).
End Chars.

(** [s.lstrip()], [s.rstrip()] and [s.strip()] with no argument. *)
Fixpoint lstrip (s : str) : str :=
  match s with
  | c :: s' => if isspace c then lstrip s' else s
  | [] => []
  end.

Definition rstrip (s : str) : str := rev (lstrip (rev s)).

Definition strip (s : str) : str := rstrip (lstrip s).

(** [s.startswith(p)], and [s] after the prefix. *)
Fixpoint chop_prefix (p s : str) : option str :=
  match p, s with
  | [], _ => Some s
  | a :: p', b :: s' => if N.eqb a b then chop_prefix p' s' else None
  | _ :: _, [] => None
  end.

(** [s.replace(old, new)]: occurrences of [old] are replaced from left to
    right, without overlap.  [skip] counts the characters of an occurrence
    just replaced that are still to be passed over. *)
Fixpoint replace_from (old new : str) (skip : nat) (s : str) : str :=
  match s with
  | [] => []
  | c :: s' =>
      match skip with
      | S n => replace_from old new n s'
      | O =>
          match chop_prefix old s with
          | Some _ => new ++ replace_from old new (length old - 1) s'
          | None => c :: replace_from old new 0 s'
          end
      end
  end.

Definition replace (old new s : str) : str :=
  match old with
  | [] => new ++ concat (map (fun c => c :: new) s)
  | _ :: _ => replace_from old new 0 s
  end.

(** [sep.join(parts)]. *)
Fixpoint join (sep : str) (parts : list str) : str :=
  match parts with
  | [] => []
  | [p] => p
  | p :: rest => p ++ sep ++ join sep rest
  end.

(** [needle in s]. *)
Fixpoint contains (needle s : str) : bool :=
  match chop_prefix needle s with
  | Some _ => true
  | None => match s with [] => false | _ :: s' => contains needle s' end
  end.

(** ** Regular expressions

    The part of the pattern syntax the program uses.  Every pattern of the
    program has one capturing group, so a match carries group 1 only. *)

Inductive regex : Type :=
| Str (l : str)                  (* a run of literal characters *)
| Seq (r1 r2 : regex)            (* r1 r2 *)
| Maybe (r : regex)              (* r?   greedy *)
| Plus (p : char -> bool)        (* [p]+ greedy *)
| LazyStar (p : char -> bool)    (* [p]*? lazy *)
| Group (r : regex).             (* ( r ) *)

Declare Scope regex_scope.
Delimit Scope regex_scope with re.
Bind Scope regex_scope with regex.
Infix "⋅" := Seq (at level 60, right associativity) : regex_scope.

(** Zero or more characters of [p], as many as possible first, then [k]. *)
Fixpoint greedy_star {A} (p : char -> bool) (s : str) (k : str -> option A)
  : option A :=
  match s with
  | c :: s' =>
      if p c then
        match greedy_star p s' k with
        | Some x => Some x
        | None => k s
        end
      else k s
  | [] => k []
  end.

(** Zero or more characters of [p], as few as possible first, then [k]. *)
Fixpoint lazy_star {A} (p : char -> bool) (s : str) (k : str -> option A)
  : option A :=
  match k s with
  | Some x => Some x
  | None =>
      match s with
      | c :: s' => if p c then lazy_star p s' k else None
      | [] => None
      end
  end.

(** The backtracking matcher: [rmatch r s g k] matches [r] at the head of
    [s] with group 1 currently [g], and hands the rest of the input and the
    group to [k]; when [k] fails the next alternative is tried. *)
Fixpoint rmatch {A} (r : regex) (s : str) (g : option str)
    (k : str -> option str -> option A) : option A :=
  match r with
  | Str l =>
      match chop_prefix l s with
      | Some s' => k s' g
      | None => None
      end
  | Seq r1 r2 => rmatch r1 s g (fun s1 g1 => rmatch r2 s1 g1 k)
  | Maybe r1 =>
      match rmatch r1 s g k with
      | Some x => Some x
      | None => k s g
      end
  | Plus p =>
      match s with
      | c :: s' => if p c then greedy_star p s' (fun s1 => k s1 g) else None
      | [] => None
      end
  | LazyStar p => lazy_star p s (fun s1 => k s1 g)
  | Group r1 =>
      rmatch r1 s g (fun s1 _ => k s1 (Some (take (length s - length s1) s)))
  end.

(** A match object: [m.start()], [m.group(0)] and [m.group(1)]. *)
Record match_obj := MatchObj {
  m_start : nat;
  group0 : str;
  group1 : option str
}.

(** [re.match] at the head of [s], the match starting at offset [i]. *)
Definition match_at (r : regex) (i : nat) (s : str) : option match_obj :=
  rmatch r s None
    (fun s1 g => Some (MatchObj i (take (length s - length s1) s) g)).

(** [re.search]: the first offset, from the left, at which [r] matches. *)
Fixpoint search_from (r : regex) (i : nat) (s : str) : option match_obj :=
  match match_at r i s with
  | Some m => Some m
  | None =>
      match s with
      | [] => None
      | _ :: s' => search_from r (S i) s'
      end
  end.

Definition re_search (r : regex) (s : str) : option match_obj :=
  search_from r 0 s.

(** ** The patterns of the program *)

(** [r"(https?://(?:www\.)?terabox\.com/s/[a-zA-Z0-9_-]+)"] *)
Definition TERABOX_URL_REGEX : regex :=
  Group (Str (py "http") ⋅ Maybe (Str (py "s")) ⋅ Str (py "://")
         ⋅ Maybe (Str (py "www.")) ⋅ Str (py "terabox.com/s/")
         ⋅ Plus token_char)%re.

(** [r'<title>(.*?) - Terabox'] *)
Definition TITLE_REGEX : regex :=
  (Str (py "<title>") ⋅ Group (LazyStar any_char) ⋅ Str (py " - Terabox"))%re.

(** The literal text before the group of the download pattern: the key
    download_url in double quotes, a colon, and the opening double quote of
    the value. *)
Definition download_key : str := dq :: py "download_url" ++ [dq; 58%N; dq].

(** The download pattern: the quoted key, then in group 1 the characters
    https: backslash slash backslash slash followed by one or more characters
    other than a double quote, then a closing double quote. *)
Definition DOWNLOAD_URL_REGEX : regex :=
  (Str download_key ⋅ Group (Str (py "https:\/\/") ⋅ Plus not_dq)
   ⋅ Str [dq])%re.

(** [2 * 1024 * 1024 * 1024] *)
Definition MAX_TELEGRAM_FILE_SIZE : N := (2 * 1024 * 1024 * 1024)%N.

(** ** The world: files, calls, exceptions *)

(** A temporary file is known by its name; of its content the program uses
    the length only, so a file is its size in bytes and a chunk of a
    response body is its length. *)
Definition path := N.

(** An exception: one whose class is [Exception] or derives from it, which
    is what [except Exception] catches, or one of the others
    (KeyboardInterrupt, SystemExit, asyncio.CancelledError), which it does not
    catch; with the text [str(e)] gives. *)
Inductive exn : Type :=
| Exception (text : str)
| BaseException (text : str).

(** [isinstance(e, Exception)] *)
Definition is_Exception (e : exn) : bool :=
  match e with
  | Exception _ => true
  | BaseException _ => false
  end.

(** [str(e)] *)
Definition exn_text (e : exn) : str :=
  match e with
  | Exception text | BaseException text => text
  end.

Inductive result (A : Type) : Type :=
| Ok (a : A)
| Raise (e : exn).
Arguments Ok {A} a.
Arguments Raise {A} e.

Record InlineKeyboardButton := Button { btn_text : str; btn_url : str }.
Definition InlineKeyboardMarkup := list (list InlineKeyboardButton).

(** The calls that leave the process or touch the file system. *)
Inductive call : Type :=
| GetChatMember (chat_id : str) (user_id : N)
| ReplyText (text : str) (reply_markup : option InlineKeyboardMarkup)
| ReplyDocument (document : path) (filename : option str)
| SessionGet (url : str) (headers : list (str * str)) (stream : bool)
    (timeout : N)
| TempFile (name : path)
| Unlink (name : path).

(** A call made, and whether it returned ([true]) or raised ([false]). *)
Record event := Ev { ev_call : call; ev_ok : bool }.

Record world := World {
  files : gmap path N;
  trace : list event
}.

(** An HTTP response: [status_code], [text], the chunks [iter_content]
    yields, and the exception that ends the stream early, if any. *)
Record response := Response {
  status_code : Z;
  text : str;
  chunks : list N;
  broken : option exn
}.

(** What is outside the program.  Every answer may depend on the calls made
    so far. *)
Record env := Env {
  CHANNEL_USERNAME : option str;
  chat_member : list event -> str -> N -> result str;
  send_fails : list event -> call -> option exn;
  http : list event -> str -> result response
}.

(** An update that carries a text message: [update.effective_user.id], which
    may be missing, and [update.message.text].  An update without a message
    or without a text is not in the model: on it [handle_message] raises
    AttributeError at its first statement, before anything is done. *)
Record Update := {
  effective_user : option N;
  message_text : str
}.

(** Computations: a state and exception monad over the world. *)
Definition M (A : Type) : Type := world -> result A * world.

Definition ret {A} (a : A) : M A := fun w => (Ok a, w).

Definition bind {A B} (m : M A) (f : A -> M B) : M B :=
  fun w =>
    match m w with
    | (Ok a, w') => f a w'
    | (Raise e, w') => (Raise e, w')
    end.

Definition raise {A} (e : exn) : M A := fun w => (Raise e, w).

(** [try: m  except Exception as e: h e]: an exception of another class
    goes through. *)
Definition try_except {A} (m : M A) (h : exn -> M A) : M A :=
  fun w =>
    match m w with
    | (Ok a, w') => (Ok a, w')
    | (Raise e, w') => if is_Exception e then h e w' else (Raise e, w')
    end.

#[global] Instance M_ret : MRet M := @ret.
#[global] Instance M_bind : MBind M := fun A B f m => bind m f.

Definition log (c : call) (ok : bool) (w : world) : world :=
  World (files w) (trace w ++ [Ev c ok]).

Definition AttributeError : exn :=
  Exception (py "'NoneType' object has no attribute").
Definition FileNotFoundError : exn :=
  Exception (py "[Errno 2] No such file or directory").
Definition KeyboardInterrupt : exn := BaseException [].

(** An attribute or method of a value that may be [None]. *)
Definition attr {A} (o : option A) : M A :=
  match o with
  | Some a => ret a
  | None => raise AttributeError
  end.

(** *** The local file system *)

(** [tempfile.NamedTemporaryFile(delete=False)]: a new, empty file under a
    name no file has; the value stands for the open file and its [name]. *)
Definition NamedTemporaryFile : M path :=
  fun w =>
    let p := fresh (dom (files w)) in
    (Ok p, log (TempFile p) true (World (<[p := 0%N]> (files w)) (trace w))).

(** [f.write(chunk)] *)
Definition write (f : path) (chunk : N) : M unit :=
  fun w => (Ok tt, World (alter (N.add chunk) f (files w)) (trace w)).

(** [f.close()] *)
Definition close (f : path) : M unit := ret tt.

(** [os.unlink(p)]; [os.remove] is the same function. *)
Definition os_unlink (p : path) : M unit :=
  fun w =>
    match files w !! p with
    | Some _ => (Ok tt, log (Unlink p) true (World (delete p (files w)) (trace w)))
    | None => (Raise FileNotFoundError, log (Unlink p) false w)
    end.

Definition os_remove : path -> M unit := os_unlink.

(** [os.path.getsize(p)] *)
Definition os_path_getsize (p : path) : M N :=
  fun w =>
    match files w !! p with
    | Some n => (Ok n, w)
    | None => (Raise FileNotFoundError, w)
    end.

(** [open(p, "rb")] *)
Definition open_rb (p : path) : M path :=
  fun w =>
    match files w !! p with
    | Some _ => (Ok p, w)
    | None => (Raise FileNotFoundError, w)
    end.

(** The loop over [iter_content]: empty chunks are skipped, the others
    written. *)
Fixpoint write_chunks (f : path) (cs : list N) : M unit :=
  match cs with
  | [] => ret tt
  | chunk :: cs' =>
      (if N.eqb chunk 0 then ret tt else write f chunk);;
      write_chunks f cs'
  end.

(** ** The program *)

Definition headers : list (str * str) :=
  [(py "User-Agent", py "Mozilla/5.0 (compatible; TelegramBot/1.0)")].

Definition MSG_JOIN_FIRST (channel : str) : str :=
  [9888%N; 65039%N] ++ py " You must join our channel @" ++ channel
  ++ py " to use this bot.".

Definition MSG_PLEASE_JOIN (channel : str) : str :=
  [9888%N; 65039%N] ++ py " Please join our channel @" ++ channel
  ++ py " to use this bot.".

Definition MSG_WELCOME : str :=
  [128075%N]
  ++ py " Welcome! Send me a Terabox link, and I will download the file for you."
  ++ [10%N; 10%N]
  ++ py "Note: You must join our channel first to use this bot.".

Definition MSG_INVALID_LINK : str :=
  [10060%N]
  ++ py " Please send a valid Terabox link (e.g. https://terabox.com/s/xyz).".

Definition MSG_DOWNLOADING (terabox_link : str) : str :=
  [128269%N] ++ py " Downloading file from: " ++ terabox_link ++ [10%N]
  ++ py "Please wait...".

Definition MSG_FAILED : str :=
  [10060%N]
  ++ py " Failed to download the file. The link might be invalid or protected.".

Definition MSG_TOO_LARGE : str :=
  [10060%N]
  ++ py " Sorry, the file is too large to send via Telegram (max 2GB).".

Definition MSG_ERROR (e : exn) : str :=
  [10060%N] ++ py " Error during download or upload: " ++ exn_text e.

(** The keyboard of the join prompt: one row, one button. *)
Definition join_keyboard (channel : str) : InlineKeyboardMarkup :=
  [[Button (py "Join Now") (py "https://t.me/" ++ channel)]].

Definition member_statuses : list str :=
  [py "member"; py "administrator"; py "creator"].

Section Program.
Variable E : env.

(** [context.bot.get_chat_member(chat_id=..., user_id=...)], giving
    [member.status]. *)
Definition get_chat_member (chat_id : str) (user_id : N) : M str :=
  fun w =>
    match chat_member E (trace w) chat_id user_id with
    | Ok status => (Ok status, log (GetChatMember chat_id user_id) true w)
    | Raise e => (Raise e, log (GetChatMember chat_id user_id) false w)
    end.

(** A send to the chat: it is delivered, or it raises. *)
Definition send (c : call) : M unit :=
  fun w =>
    match send_fails E (trace w) c with
    | None => (Ok tt, log c true w)
    | Some e => (Raise e, log c false w)
    end.

(** [update.message.reply_text(text, reply_markup=...)] *)
Definition reply_text (msg : str) (reply_markup : option InlineKeyboardMarkup)
  : M unit :=
  send (ReplyText msg reply_markup).

(** [update.message.reply_document(document=..., filename=...)] *)
Definition reply_document (document : path) (filename : option str)
  : M unit :=
  send (ReplyDocument document filename).

(** [session.get(url, headers=headers, stream=..., timeout=...)] *)
Definition session_get (url : str) (stream : bool) (timeout : N)
  : M response :=
  fun w =>
    match http E (trace w) url with
    | Ok r => (Ok r, log (SessionGet url headers stream timeout) true w)
    | Raise e => (Raise e, log (SessionGet url headers stream timeout) false w)
    end.

(** [force_subscribe(update, context)] *)
Definition force_subscribe (update : Update) : M bool :=
  match CHANNEL_USERNAME E with
  | None | Some [] => ret true
  | Some channel =>
      try_except
        (user_id ← attr (effective_user update);
         status ← get_chat_member (py "@" ++ channel) user_id;
         if bool_decide (status ∈ member_statuses) then ret true
         else
           reply_text (MSG_JOIN_FIRST channel) (Some (join_keyboard channel));;
           ret false)
        (fun _ =>
           reply_text (MSG_PLEASE_JOIN channel) (Some (join_keyboard channel));;
           ret false)
  end.

(** [start(update, context)] *)
Definition start (update : Update) : M unit :=
  reply_text MSG_WELCOME None.

(** The [try] block of [download_terabox_file]. *)
Definition download_terabox_file_try (terabox_link : str)
  : M (option path * option str) :=
  resp ← session_get terabox_link false 30;
  if negb (status_code resp =? 200)%Z then ret (None, None)
  else
    let html := text resp in
    file_name ←
      match re_search TITLE_REGEX html with
      | Some file_name_match =>
          g ← attr (group1 file_name_match); ret (strip g)
      | None => ret (py "terabox_file")
      end;
    match re_search DOWNLOAD_URL_REGEX html with
    | Some download_url_match =>
        g ← attr (group1 download_url_match);
        let download_url := replace (py "\/") (py "/") g in
        temp_file ← NamedTemporaryFile;
        download_response ← session_get download_url true 60;
        if negb (status_code download_response =? 200)%Z then
          close temp_file;;
          os_unlink temp_file;;
          ret (None, None)
        else
          write_chunks temp_file (chunks download_response);;
          match broken download_response with
          | Some e => raise e
          | None => ret tt
          end;;
          close temp_file;;
          ret (Some temp_file, Some file_name)
    | None => ret (None, None)
    end.

(** [download_terabox_file(terabox_link)]: the block above, and
    [except Exception: return None, None]. *)
Definition download_terabox_file (terabox_link : str)
  : M (option path * option str) :=
  try_except (download_terabox_file_try terabox_link)
    (fun _ => ret (None, None)).

(** The [try] block of [handle_message]. *)
Definition handle_message_try (terabox_link : str) : M unit :=
  res ← download_terabox_file terabox_link;
  let '(file_path, file_name) := res in
  match file_path with
  | None => reply_text MSG_FAILED None
  | Some file_path =>
      file_size ← os_path_getsize file_path;
      if (MAX_TELEGRAM_FILE_SIZE <? file_size)%N then
        reply_text MSG_TOO_LARGE None;;
        os_remove file_path
      else
        document ← open_rb file_path;
        reply_document document file_name;;
        os_remove file_path
  end.

(** [handle_message(update, context)].  Group 1 of the link pattern spans
    the whole pattern, so [match.group(1)] is always a string
    ([terabox_group1] below). *)
Definition handle_message (update : Update) : M unit :=
  let text := strip (message_text update) in
  joined ← force_subscribe update;
  if negb joined then ret tt
  else
    match re_search TERABOX_URL_REGEX text with
    | None => reply_text MSG_INVALID_LINK None
    | Some match_ =>
        terabox_link ← attr (group1 match_);
        reply_text (MSG_DOWNLOADING terabox_link) None;;
        try_except (handle_message_try terabox_link)
          (fun e => reply_text (MSG_ERROR e) None)
    end.
End Program.

(** ** What the specification speaks of *)

(** The declarative reading of a pattern: [matches r s g g'] says that [r]
    matches exactly the string [s], group 1 being [g] before and [g']
    after. *)
Inductive matches : regex -> str -> option str -> option str -> Prop :=
| matches_Str l g : matches (Str l) l g g
| matches_Seq r1 r2 a b g g1 g2 :
    matches r1 a g g1 -> matches r2 b g1 g2 ->
    matches (Seq r1 r2) (a ++ b) g g2
| matches_Maybe_skip r g : matches (Maybe r) [] g g
| matches_Maybe_take r a g g1 : matches r a g g1 -> matches (Maybe r) a g g1
| matches_Plus p a g :
    a <> [] -> forallb p a = true -> matches (Plus p) a g g
| matches_LazyStar p a g : forallb p a = true -> matches (LazyStar p) a g g
| matches_Group r a g g1 : matches r a g g1 -> matches (Group r) a g (Some a).

(** A share link, in the words of the specification: scheme, optional
    www, the fixed host, /s/, and a non-empty token of letters, digits,
    underscore and hyphen. *)
Definition share_link (l : str) : Prop :=
  exists scheme www token,
    l = scheme ++ py "://" ++ www ++ py "terabox.com/s/" ++ token
    /\ (scheme = py "http" \/ scheme = py "https")
    /\ (www = [] \/ www = py "www.")
    /\ token <> [] /\ forallb token_char token = true.

(** The value of a well-formed download-URL token: an https URL whose
    separators are escaped, with no double quote inside. *)
Definition download_token (v : str) : Prop :=
  exists rest,
    v = py "https:\/\/" ++ rest /\ rest <> [] /\ forallb not_dq rest = true.

(** [s] does not go on with a character of [p]. *)
Definition stops (p : char -> bool) (s : str) : Prop :=
  match s with
  | [] => True
  | c :: _ => p c = false
  end.



(** The calls of the gate, and the calls of the fetch routine. *)
Definition is_chat_call (c : call) : bool :=
  match c with
  | GetChatMember _ _ | ReplyText _ _ => true
  | _ => false
  end.

Definition is_fetch_call (c : call) : bool :=
  match c with
  | SessionGet _ _ _ _ | TempFile _ | Unlink _ => true
  | _ => false
  end.

(** The event is the creation, respectively the removal, of the file [p]. *)
Definition is_creation (p : path) (e : event) : bool :=
  match e with
  | Ev (TempFile q) true => N.eqb p q
  | _ => false
  end.

Definition is_removal (p : path) (e : event) : bool :=
  match e with
  | Ev (Unlink q) true => N.eqb p q
  | _ => false
  end.

Definition creations (p : path) (tr : list event) : nat :=
  length (filter (is_creation p) tr).

Definition removals (p : path) (tr : list event) : nat :=
  length (filter (is_removal p) tr).

(** The escaped path separator of a download-URL token, and the literal
    one. *)
Definition ESC : str := py "\/".
Definition SLASH : str := py "/".

(** ** What the further properties speak of *)

(** The bytes of the chunks written. *)
Definition total_bytes (cs : list N) : N := foldr N.add 0%N cs.

(** The URL begins with https and two literal slashes. *)
Definition is_https (url : str) : Prop := exists rest, url = py "https://" ++ rest.


(** A title, in the words of the pattern: the opening tag, a text without
    a line feed, and the suffix of the service. *)
Definition title_at (s t post : str) : Prop :=
  s = py "<title>" ++ t ++ py " - Terabox" ++ post
  /\ forallb any_char t = true.

(** The event is an HTTP request; the creation of a temporary file; a
    membership query. *)
Definition is_request (e : event) : bool :=
  match ev_call e with
  | SessionGet _ _ _ _ => true
  | _ => false
  end.

Definition is_tempfile (e : event) : bool :=
  match ev_call e with
  | TempFile _ => true
  | _ => false
  end.

Definition is_query (e : event) : bool :=
  match ev_call e with
  | GetChatMember _ _ => true
  | _ => false
  end.

(** What a call of the handler may be, for a message whose link is [link]
    (if it has one) and a temporary file named [p]: any call to the chat
    platform about text; a document, a creation and a removal only of [p];
    a request for the page only of the link, not streamed, within 30
    seconds; a streamed request only of an https URL, within 60 seconds. *)
Definition handler_call (link : option str) (p : path) (c : call) : Prop :=
  match c with
  | GetChatMember _ _ | ReplyText _ _ => True
  | ReplyDocument d _ => d = p
  | SessionGet url h s t =>
      h = headers
      /\ ((s = false /\ t = 30%N /\ link = Some url)
          \/ (s = true /\ t = 60%N /\ is_https url))
  | TempFile q | Unlink q => q = p
  end.


(** ** Scenarios

    Concrete messages, pages and environments on which the program is
    run. *)

Definition ex_link : str := py "https://terabox.com/s/AbC123_-xyz".
Definition ex_text : str :=
  py "check this https://terabox.com/s/AbC123_-xyz please".
Definition ex_update : Update := Build_Update (Some 42%N) ex_text.
Definition ex_update_plain : Update :=
  Build_Update (Some 42%N) (py "  hello, which files do you have?  ").
Definition ex_value : str := py "https:\/\/d.terabox.com\/file\/1".
Definition ex_url : str := py "https://d.terabox.com/file/1".
Definition ex_page_head : str :=
  py "<html><head><title>movie.mp4 - Terabox</title></head><script>{".
Definition ex_page_tail : str := py ",}</script></html>".
Definition ex_page : str :=
  ex_page_head ++ download_key ++ ex_value ++ dq :: ex_page_tail.
Definition ex_page_plain : str :=
  py "<html><head><title>Terabox</title></head>nothing to fetch</html>".
Definition empty_world : world := World ∅ [].
Definition ex_ack : call := ReplyText (MSG_DOWNLOADING ex_link) None.

(** A server that answers the share link with [page] and the direct URL
    with [download]. *)
Definition ex_http (page : str) (download : result response)
  : list event -> str -> result response :=
  fun _ url =>
    if bool_decide (url = ex_link) then Ok (Response 200 page [] None)
    else if bool_decide (url = ex_url) then download
    else Raise (Exception (py "Connection refused")).

Definition never_fails : list event -> call -> option exn := fun _ _ => None.

Definition document_fails : list event -> call -> option exn :=
  fun _ c =>
    match c with
    | ReplyDocument _ _ => Some (Exception (py "Timed out"))
    | _ => None
    end.

Definition not_asked : list event -> str -> N -> result str :=
  fun _ _ _ => Raise (Exception (py "Chat not found")).

(** No channel configured, every send delivered. *)
Definition ex_env (page : str) (download : result response) : env :=
  Env None not_asked never_fails (ex_http page download).

(** Downloads: a small file; 8192 bytes more than 2 GiB; exactly 2 GiB; a
    404; a stream that breaks; a request that times out.  The chunks are as
    the library hands them over: [chunk_size] is what it reads at a time, not
    a bound on what it yields once the content is decoded. *)
Definition ex_small : result response :=
  Ok (Response 200 [] [8192%N; 0%N; 100%N] None).
Definition ex_big : result response :=
  Ok (Response 200 [] [1073741824%N; 1073741824%N; 8192%N] None).
Definition ex_exact : result response :=
  Ok (Response 200 [] [1073741824%N; 1073741824%N] None).
Definition ex_not_found : result response := Ok (Response 404 [] [] None).
Definition ex_broken : result response :=
  Ok (Response 200 [] [8192%N] (Some (Exception (py "Connection broken")))).
Definition ex_timeout : result response :=
  Raise (Exception (py "Read timed out")).

(** The chat platform refuses the document. *)
Definition ex_env_document_fails : env :=
  Env None not_asked document_fails (ex_http ex_page ex_small).

(** A channel is configured and the sender has left it. *)
Definition ex_env_left : env :=
  Env (Some (py "mychannel")) (fun _ _ _ => Ok (py "left")) never_fails
    (ex_http ex_page ex_small).

Definition always_fails : list event -> call -> option exn :=
  fun _ _ => Some (Exception (py "Forbidden: bot was blocked by the user")).

(** The chat platform refuses every send. *)
Definition ex_env_blocked : env :=
  Env None not_asked always_fails (ex_http ex_page ex_small).


(** A store that holds two files already. *)
Definition ex_world_busy : world := World {[0%N := 77%N; 1%N := 5%N]} [].

(** The process is interrupted while a request is under way. *)
Definition ex_env_interrupted : env :=
  Env None not_asked never_fails (fun _ _ => Raise KeyboardInterrupt).



(** The chat platform refuses one text and nothing else. *)
Definition text_fails (refused : str) : list event -> call -> option exn :=
  fun _ c =>
    match c with
    | ReplyText msg _ =>
        if bool_decide (msg = refused)
        then Some (Exception (py "Timed out")) else None
    | _ => None
    end.

(** A download of more than 2 GiB, and the size-limit message refused. *)
Definition ex_env_oversize_refused : env :=
  Env None not_asked (text_fails MSG_TOO_LARGE) (ex_http ex_page ex_big).


(** * Properties *)

(** ** Strings and patterns *)


Lemma chop_prefix_app (l s : str) : chop_prefix l (l ++ s) = Some s.
Proof.
  induction l as [|c l IH]; simpl; [reflexivity|].
  rewrite N.eqb_refl. exact IH.
Qed.

Lemma chop_prefix_Some (l s s' : str) : chop_prefix l s = Some s' -> s = l ++ s'.
Proof.
  revert s. induction l as [|c l IH]; intros s H; simpl in *.
  - congruence.
  - destruct s as [|d s]; [discriminate|].
    destruct (N.eqb_spec c d) as [->|]; [|discriminate].
    f_equal. apply IH, H.
Qed.

Section Stars.
Context {A : Type} (p : char -> bool) (k : str -> option A).

Lemma greedy_star_sound s x :
  greedy_star p s k = Some x ->
  exists a b, s = a ++ b /\ forallb p a = true /\ k b = Some x.
Proof.
  revert x. induction s as [|c s IH]; intros x H; simpl in H.
  - exists [], []. auto.
  - destruct (p c) eqn:Hc.
    + destruct (greedy_star p s k) as [y|] eqn:Hs.
      * destruct (IH y eq_refl) as (a & b & -> & Ha & Hk).
        exists (c :: a), b. simpl. rewrite Hc, Ha. split; [done|]. split; [reflexivity|congruence].
      * exists [], (c :: s). auto.
    + exists [], (c :: s). auto.
Qed.

Lemma greedy_star_complete a b :
  forallb p a = true -> k b <> None -> greedy_star p (a ++ b) k <> None.
Proof.
  induction a as [|c a IH]; simpl; intros Ha Hk.
  - destruct b as [|d b]; simpl; [exact Hk|].
    destruct (p d); [|exact Hk].
    destruct (greedy_star p b k); [discriminate|exact Hk].
  - apply andb_true_iff in Ha as [-> Ha].
    destruct (greedy_star p (a ++ b) k) eqn:E; [discriminate|].
    exfalso. eapply IH; eauto.
Qed.

(** The split taken is the longest on which the continuation succeeds. *)
Lemma greedy_star_longest s x :
  greedy_star p s k = Some x ->
  exists a b, s = a ++ b /\ forallb p a = true /\ k b = Some x /\
    forall a' b', s = a' ++ b' -> forallb p a' = true ->
      length a < length a' -> k b' = None.
Proof.
  revert x. induction s as [|c s IH]; intros x H; simpl in H.
  - exists [], []. repeat split; auto.
    intros a' b' E _ L. symmetry in E. apply app_eq_nil in E as [-> _]. simpl in L. lia.
  - destruct (p c) eqn:Hc.
    + destruct (greedy_star p s k) as [y|] eqn:Hs.
      * destruct (IH y eq_refl) as (a & b & -> & Ha & Hk & Hmax).
        exists (c :: a), b. simpl. rewrite Hc, Ha.
        repeat split; try congruence.
        intros a' b' E Ha' L. destruct a' as [|c' a']; simpl in L; [lia|].
        simpl in E. injection E as <- E. simpl in Ha'.
        apply andb_true_iff in Ha' as [_ Ha'].
        apply (Hmax a' b' E Ha'). lia.
      * exists [], (c :: s). repeat split; auto.
        intros a' b' E Ha' L. destruct a' as [|c' a']; simpl in L; [lia|].
        simpl in E. injection E as <- E. simpl in Ha'.
        apply andb_true_iff in Ha' as [_ Ha'].
        destruct (k b') eqn:Hk; [|reflexivity].
        exfalso. apply (greedy_star_complete a' b' Ha'); [congruence|].
        rewrite <- E. exact Hs.
    + exists [], (c :: s). repeat split; auto.
      intros a' b' E Ha' L. destruct a' as [|c' a']; simpl in L; [lia|].
      simpl in E. injection E as <- E. simpl in Ha'. rewrite Hc in Ha'. discriminate.
Qed.

Lemma lazy_star_sound s x :
  lazy_star p s k = Some x ->
  exists a b, s = a ++ b /\ forallb p a = true /\ k b = Some x.
Proof.
  revert x. induction s as [|c s IH]; intros x H; simpl in H.
  - destruct (k []) eqn:Hk; [|discriminate]. exists [], []. split; [done|]. split; [done|]. congruence.
  - destruct (k (c :: s)) eqn:Hk.
    + exists [], (c :: s). split; [done|]. split; [done|]. congruence.
    + destruct (p c) eqn:Hc; [|discriminate].
      destruct (IH x H) as (a & b & -> & Ha & Hb).
      exists (c :: a), b. simpl. rewrite Hc, Ha. auto.
Qed.

Lemma lazy_star_complete a b :
  forallb p a = true -> k b <> None -> lazy_star p (a ++ b) k <> None.
Proof.
  induction a as [|c a IH]; simpl; intros Ha Hk.
  - destruct b as [|d b]; simpl; destruct (k _); congruence.
  - apply andb_true_iff in Ha as [-> Ha].
    destruct (k (c :: a ++ b)); [discriminate|]. auto.
Qed.
End Stars.

Lemma take_app_rest (a b : str) : take (length (a ++ b) - length b) (a ++ b) = a.
Proof.
  rewrite length_app. replace (length a + length b - length b) with (length a) by lia.
  apply take_app_length.
Qed.

Lemma rmatch_sound {A} (r : regex) : forall s g (k : str -> option str -> option A) x,
  rmatch r s g k = Some x ->
  exists a b g1, s = a ++ b /\ matches r a g g1 /\ k b g1 = Some x.
Proof.
  induction r as [l|r1 IH1 r2 IH2|r IH|p|p|r IH]; intros s g k x H; simpl in H.
  - destruct (chop_prefix l s) as [s'|] eqn:E; [|discriminate].
    apply chop_prefix_Some in E. exists l, s', g. split; [done|]. split; [constructor|done].
  - apply IH1 in H as (a & b & g1 & -> & M1 & H).
    apply IH2 in H as (a2 & b2 & g2 & -> & M2 & H).
    exists (a ++ a2), b2, g2. rewrite <- app_assoc. split; [done|]. split; [econstructor; eauto|done].
  - destruct (rmatch r s g k) as [y|] eqn:E.
    + apply IH in E as (a & b & g1 & -> & M1 & E).
      exists a, b, g1. split; [done|]. split; [by constructor|congruence].
    + exists [], s, g. split; [done|]. split; [constructor|done].
  - destruct s as [|c s]; [discriminate|]. destruct (p c) eqn:Hc; [|discriminate].
    apply greedy_star_sound in H as (a & b & -> & Ha & H).
    exists (c :: a), b, g. split; [done|]. split; [|done].
    constructor; [discriminate|]. simpl. by rewrite Hc.
  - apply lazy_star_sound in H as (a & b & -> & Ha & H).
    exists a, b, g. split; [done|]. split; [by constructor|done].
  - apply IH in H as (a & b & g1 & -> & M1 & H).
    rewrite take_app_rest in H.
    exists a, b, (Some a). split; [done|]. split; [econstructor; eauto|done].
Qed.

Lemma rmatch_complete (r : regex) a g0 g1 :
  matches r a g0 g1 ->
  forall A b (k : str -> option str -> option A) g,
    (forall g', k b g' <> None) -> rmatch r (a ++ b) g k <> None.
Proof.
  induction 1 as [l g0|r1 r2 a1 a2 g0 g1 g2 _ IH1 _ IH2|r g0|r a g0 g1 _ IH
                 |p a g0 Hne Ha|p a g0 Ha|r a g0 g1 _ IH]; intros A b k g Hk; simpl.
  - rewrite chop_prefix_app. apply Hk.
  - rewrite <- app_assoc. apply IH1. intros g'. apply IH2, Hk.
  - destruct (rmatch r b g k); [discriminate|apply Hk].
  - specialize (IH A b k g Hk). destruct (rmatch r (a ++ b) g k); [discriminate|done].
  - destruct a as [|c a]; [done|]. simpl in *.
    apply andb_true_iff in Ha as [-> Ha].
    apply greedy_star_complete; [exact Ha|apply Hk].
  - apply lazy_star_complete; [exact Ha|apply Hk].
  - apply IH. intros g'. apply Hk.
Qed.


Lemma rmatch_Seq {A} r1 r2 s g (k : str -> option str -> option A) :
  rmatch (Seq r1 r2) s g k = rmatch r1 s g (fun s1 g1 => rmatch r2 s1 g1 k).
Proof. reflexivity. Qed.

Lemma rmatch_Group {A} r s g (k : str -> option str -> option A) :
  rmatch (Group r) s g k
  = rmatch r s g (fun s1 _ => k s1 (Some (take (length s - length s1) s))).
Proof. reflexivity. Qed.

Lemma rmatch_Plus_longest {A} p s g (k : str -> option str -> option A) x :
  rmatch (Plus p) s g k = Some x ->
  (forall b, k b g <> None) ->
  exists a b, s = a ++ b /\ a <> [] /\ forallb p a = true /\ k b g = Some x
              /\ stops p b.
Proof.
  intros H Hk. simpl in H.
  destruct s as [|c s]; [discriminate|]. destruct (p c) eqn:Hc; [|discriminate].
  apply greedy_star_longest in H as (a & b & -> & Ha & H & Hmax).
  exists (c :: a), b. split; [done|]. split; [done|].
  split; [simpl; by rewrite Hc|]. split; [done|].
  destruct b as [|d b]; simpl; [done|].
  destruct (p d) eqn:Hd; [|done].
  exfalso. apply (Hk b). apply (Hmax (a ++ [d]) b).
  - by rewrite <- app_assoc.
  - rewrite forallb_app, Ha. simpl. by rewrite Hd.
  - rewrite length_app. simpl. lia.
Qed.

Lemma match_at_sound r i s m :
  match_at r i s = Some m ->
  exists a b g, s = a ++ b /\ matches r a None g /\ m = MatchObj i a g.
Proof.
  unfold match_at. intros H.
  apply rmatch_sound in H as (a & b & g & -> & Hm & H).
  rewrite take_app_rest in H. exists a, b, g. split; [done|]. split; congruence.
Qed.

Lemma match_at_complete r i a b g0 g1 :
  matches r a g0 g1 -> match_at r i (a ++ b) <> None.
Proof.
  intros Hm. unfold match_at. eapply rmatch_complete; [exact Hm|]. discriminate.
Qed.

(** [re.search] returns a match of the pattern, and no match starts before
    it. *)
Lemma search_from_sound r s : forall i m,
  search_from r i s = Some m ->
  exists pre a post g,
    s = pre ++ a ++ post /\ matches r a None g
    /\ m = MatchObj (i + length pre) a g
    /\ match_at r (i + length pre) (a ++ post) = Some m
    /\ forall pre' a' post' g0 g1,
         s = pre' ++ a' ++ post' -> matches r a' g0 g1 ->
         length pre <= length pre'.
Proof.
  induction s as [|c s IH]; intros i m H; simpl in H.
  - destruct (match_at r i []) as [m'|] eqn:E; [|discriminate].
    injection H as ->.
    destruct (match_at_sound _ _ _ _ E) as (a & b & g & Hs & Hm & ->).
    exists [], a, b, g. simpl. rewrite Nat.add_0_r, <- Hs.
    repeat split; auto. intros; lia.
  - destruct (match_at r i (c :: s)) as [m'|] eqn:E.
    + injection H as ->.
      destruct (match_at_sound _ _ _ _ E) as (a & b & g & Hs & Hm & ->).
      exists [], a, b, g. simpl. rewrite Nat.add_0_r, <- Hs.
      repeat split; auto. intros; lia.
    + apply IH in H as (pre & a & post & g & -> & Hm & -> & Hat & Hleft).
      exists (c :: pre), a, post, g. simpl.
      replace (i + S (length pre)) with (S i + length pre) by lia.
      repeat split; auto.
      intros pre' a' post' g0 g1 Hs Hm'.
      destruct pre' as [|c' pre']; simpl in *.
      * exfalso. rewrite Hs in E. exact (match_at_complete _ _ _ _ _ _ Hm' E).
      * injection Hs as _ Hs. specialize (Hleft _ _ _ _ _ Hs Hm'). lia.
Qed.

Lemma search_from_None r s : forall i,
  search_from r i s = None ->
  forall pre a post g0 g1, s = pre ++ a ++ post -> ~ matches r a g0 g1.
Proof.
  induction s as [|c s IH]; intros i H pre a post g0 g1 Hs Hm; simpl in H.
  - destruct (match_at r i []) eqn:E; [discriminate|].
    symmetry in Hs. apply app_eq_nil in Hs as [-> Hs]. simpl in *.
    rewrite <- Hs in E. exact (match_at_complete _ _ _ _ _ _ Hm E).
  - destruct (match_at r i (c :: s)) eqn:E; [discriminate|].
    destruct pre as [|c' pre]; simpl in Hs.
    + rewrite Hs in E. exact (match_at_complete _ _ _ _ _ _ Hm E).
    + injection Hs as _ Hs. exact (IH _ H _ _ _ _ _ Hs Hm).
Qed.

Ltac norm_py :=
  repeat match goal with
    | |- context [py ?s] =>
        let v := eval vm_compute in (py s) in change (py s) with v
    | H : context [py ?s] |- _ =>
        let v := eval vm_compute in (py s) in change (py s) with v in H
    end.

Lemma matches_Str_inv l a g g1 : matches (Str l) a g g1 -> a = l /\ g1 = g.
Proof. inversion 1; auto. Qed.

Lemma matches_Maybe_Str_inv l a g g1 :
  matches (Maybe (Str l)) a g g1 -> (a = [] \/ a = l) /\ g1 = g.
Proof.
  inversion 1; subst; [auto|].
  match goal with H : matches (Str _) _ _ _ |- _ => apply matches_Str_inv in H as [-> ->] end.
  auto.
Qed.

Lemma matches_Plus_inv p a g g1 :
  matches (Plus p) a g g1 -> a <> [] /\ forallb p a = true /\ g1 = g.
Proof. inversion 1; auto. Qed.

Lemma matches_Seq_inv r1 r2 s g g2 :
  matches (Seq r1 r2) s g g2 ->
  exists a b g1, s = a ++ b /\ matches r1 a g g1 /\ matches r2 b g1 g2.
Proof. inversion 1; subst; eauto 10. Qed.

Lemma matches_Group_inv r a g g1 :
  matches (Group r) a g g1 -> g1 = Some a /\ exists g', matches r a g g'.
Proof. inversion 1; subst; eauto. Qed.

Lemma share_link_matches l :
  share_link l <-> matches TERABOX_URL_REGEX l None (Some l).
Proof.
  split.
  - intros (scheme & www & token & -> & Hs & Hw & Hne & Htok).
    unfold TERABOX_URL_REGEX. apply (matches_Group _ _ None None).
    assert (Hscheme : exists s, scheme = py "http" ++ s /\ (s = [] \/ s = py "s")).
    { destruct Hs as [-> | ->]; [exists []|exists (py "s")]; split; auto using app_nil_r. }
    destruct Hscheme as (s & -> & Hs').
    rewrite <- !app_assoc.
    eapply matches_Seq; [apply matches_Str|].
    eapply matches_Seq;
      [destruct Hs' as [-> | ->];
       [apply matches_Maybe_skip|apply matches_Maybe_take, matches_Str]|].
    eapply matches_Seq; [apply matches_Str|].
    eapply matches_Seq;
      [destruct Hw as [-> | ->];
       [apply matches_Maybe_skip|apply matches_Maybe_take, matches_Str]|].
    eapply matches_Seq; [apply matches_Str|].
    by apply matches_Plus.
  - unfold TERABOX_URL_REGEX. intros H.
    apply matches_Group_inv in H as [_ [g' H]].
    apply matches_Seq_inv in H as (a1 & b1 & g1 & -> & H1 & H).
    apply matches_Seq_inv in H as (a2 & b2 & g2 & -> & H2 & H).
    apply matches_Seq_inv in H as (a3 & b3 & g3 & -> & H3 & H).
    apply matches_Seq_inv in H as (a4 & b4 & g4 & -> & H4 & H).
    apply matches_Seq_inv in H as (a5 & b5 & g5 & -> & H5 & H).
    apply matches_Str_inv in H1 as [-> ->].
    apply matches_Maybe_Str_inv in H2 as [H2 ->].
    apply matches_Str_inv in H3 as [-> ->].
    apply matches_Maybe_Str_inv in H4 as [H4 ->].
    apply matches_Str_inv in H5 as [-> ->].
    apply matches_Plus_inv in H as (Hne & Htok & ->).
    exists (py "http" ++ a2), a4, b5. rewrite <- !app_assoc.
    split; [done|]. split; [|done].
    destruct H2 as [-> | ->]; auto.
Qed.


Lemma prefix_stops (p : char -> bool) (a b a' b' : str) :
  a ++ b = a' ++ b' -> forallb p a' = true -> stops p b ->
  length a' <= length a.
Proof.
  revert a'. induction a as [|c a IH]; intros a' E Ha' Hb.
  - destruct a' as [|c' a']; [done|]. simpl in *. subst b. simpl in Hb.
    apply andb_true_iff in Ha' as [Hc _]. congruence.
  - destruct a' as [|c' a']; simpl in *; [lia|].
    injection E as _ E. apply andb_true_iff in Ha' as [_ Ha'].
    specialize (IH _ E Ha' Hb). lia.
Qed.

Lemma terabox_match_at i s m :
  match_at TERABOX_URL_REGEX i s = Some m ->
  exists link post,
    s = link ++ post /\ m = MatchObj i link (Some link) /\ share_link link
    /\ forall link' post', s = link' ++ post' -> share_link link' ->
         length link' <= length link.
Proof.
  unfold match_at, TERABOX_URL_REGEX. intros H.
  rewrite rmatch_Group in H.
  rewrite rmatch_Seq in H. apply rmatch_sound in H as (a1 & b1 & g1 & E1 & H1 & H).
  rewrite rmatch_Seq in H. apply rmatch_sound in H as (a2 & b2 & g2 & E2 & H2 & H).
  rewrite rmatch_Seq in H. apply rmatch_sound in H as (a3 & b3 & g3 & E3 & H3 & H).
  rewrite rmatch_Seq in H. apply rmatch_sound in H as (a4 & b4 & g4 & E4 & H4 & H).
  rewrite rmatch_Seq in H. apply rmatch_sound in H as (a5 & b5 & g5 & E5 & H5 & H).
  apply rmatch_Plus_longest in H as (tok & post & E6 & Hne & Htok & H & Hstop);
    [|discriminate].
  apply matches_Str_inv in H1 as [-> ->].
  apply matches_Maybe_Str_inv in H2 as [H2 ->].
  apply matches_Str_inv in H3 as [-> ->].
  apply matches_Maybe_Str_inv in H4 as [H4 ->].
  apply matches_Str_inv in H5 as [-> ->].
  subst b5 b4 b3 b2 b1.
  set (link := py "http" ++ a2 ++ py "://" ++ a4 ++ py "terabox.com/s/" ++ tok).
  assert (Es : s = link ++ post) by (subst s link; by rewrite <- !app_assoc).
  rewrite Es, take_app_rest in H. injection H as <-.
  exists link, post. split; [done|]. split; [done|].
  split.
  - exists (py "http" ++ a2), a4, tok. subst link. rewrite <- !app_assoc.
    split; [done|]. split; [|done]. destruct H2 as [-> | ->]; auto.
  - intros link' post' Es' (scheme & www & tok' & -> & Hs & Hw & _ & Htok').
    rewrite Es in Es'. subst link. clear Es E1.
    rewrite !length_app.
    rewrite <- !app_assoc in Es'.
    destruct H2 as [-> | ->], H4 as [-> | ->], Hs as [-> | ->], Hw as [-> | ->];
      norm_py; simpl in Es'; simpl; try discriminate Es';
      simplify_eq; (eapply prefix_stops in Htok'; [|eassumption|eassumption]); lia.
Qed.

(** ** The link pattern and the download pattern *)


(** [re.search] of the link pattern: the match found is a share link, no
    share link starts before it, and none that starts with it is longer;
    when nothing is found the text holds no share link. *)
Lemma re_search_terabox (text : str) :
  match re_search TERABOX_URL_REGEX text with
  | Some m =>
      exists pre link post,
        text = pre ++ link ++ post
        /\ m = MatchObj (length pre) link (Some link)
        /\ share_link link
        /\ forall pre' link' post',
             text = pre' ++ link' ++ post' -> share_link link' ->
             length pre <= length pre'
             /\ (length pre' = length pre -> length link' <= length link)
  | None =>
      forall pre link post, text = pre ++ link ++ post -> ~ share_link link
  end.
Proof.
  unfold re_search. destruct (search_from TERABOX_URL_REGEX 0 text) as [m|] eqn:E.
  - apply search_from_sound in E as (pre & a & post & g & -> & _ & -> & Hat & Hleft).
    apply terabox_match_at in Hat as (link & post2 & Es & Hm & Hlink & Hlong).
    injection Hm as -> ->.
    apply app_inv_head in Es as ->.
    exists pre, link, post2. repeat split; auto.
    + intros. eapply Hleft; [eassumption|]. by apply share_link_matches.
    + intros Hlen. apply app_inj_1 in H as [-> H]; [|done]. eauto.
  - intros pre link post -> Hl. apply share_link_matches in Hl.
    eapply search_from_None; eauto.
Qed.

Lemma download_matches a g :
  matches DOWNLOAD_URL_REGEX a None g ->
  exists v, a = download_key ++ v ++ [dq] /\ download_token v /\ g = Some v.
Proof.
  unfold DOWNLOAD_URL_REGEX. intros H.
  apply matches_Seq_inv in H as (a1 & b1 & g1 & -> & H1 & H).
  apply matches_Seq_inv in H as (a2 & b2 & g2 & -> & H2 & H).
  apply matches_Str_inv in H1 as [-> ->].
  apply matches_Str_inv in H as [-> ->].
  apply matches_Group_inv in H2 as [-> [g' H2]].
  apply matches_Seq_inv in H2 as (a3 & b3 & g3 & -> & H3 & H).
  apply matches_Str_inv in H3 as [-> ->].
  apply matches_Plus_inv in H as (Hne & Hrest & ->).
  eexists. split; [reflexivity|]. split; [|reflexivity].
  exists b3. auto.
Qed.

Lemma download_token_matches v :
  download_token v ->
  matches DOWNLOAD_URL_REGEX (download_key ++ v ++ [dq]) None (Some v).
Proof.
  intros (rest & -> & Hne & Hrest). unfold DOWNLOAD_URL_REGEX.
  eapply matches_Seq; [apply matches_Str|].
  eapply matches_Seq; [|apply matches_Str].
  apply (matches_Group _ _ None None).
  eapply matches_Seq; [apply matches_Str|].
  by apply matches_Plus.
Qed.

Lemma download_token_no_dq v : download_token v -> forallb not_dq v = true.
Proof.
  intros (rest & -> & _ & Hrest). rewrite forallb_app, Hrest. reflexivity.
Qed.

Lemma first_dq_unique (v v' post post' : str) :
  v ++ dq :: post = v' ++ dq :: post' ->
  forallb not_dq v = true -> forallb not_dq v' = true -> v = v'.
Proof.
  revert v'. induction v as [|c v IH]; intros [|c' v'] E Hv Hv'; simpl in *.
  - done.
  - injection E as <- _. discriminate.
  - injection E as -> _. discriminate.
  - injection E as <- E. apply andb_true_iff in Hv as [_ Hv].
    apply andb_true_iff in Hv' as [_ Hv']. f_equal. eauto.
Qed.

Lemma search_from_complete r s i pre a post g0 g1 :
  s = pre ++ a ++ post -> matches r a g0 g1 -> search_from r i s <> None.
Proof.
  intros Hs Hm E. eapply search_from_None; eauto.
Qed.

Lemma download_url_found html pre v post :
  html = pre ++ download_key ++ v ++ dq :: post ->
  download_token v ->
  (forall pre' v' post',
     html = pre' ++ download_key ++ v' ++ dq :: post' -> download_token v' ->
     length pre <= length pre') ->
  exists m, re_search DOWNLOAD_URL_REGEX html = Some m /\ group1 m = Some v.
Proof.
  intros Hs Hv Hfirst. unfold re_search.
  destruct (search_from DOWNLOAD_URL_REGEX 0 html) as [m|] eqn:E.
  - exists m. split; [done|].
    apply search_from_sound in E as (pre0 & a & post0 & g & Hs0 & Hm & -> & _ & Hleft).
    simpl. apply download_matches in Hm as (v0 & -> & Hv0 & ->).
    assert (Hle : length pre0 <= length pre).
    { apply (Hleft pre (download_key ++ v ++ [dq]) post None (Some v)).
      - rewrite Hs. by rewrite <- !app_assoc.
      - by apply download_token_matches. }
    assert (Hge : length pre <= length pre0).
    { apply (Hfirst pre0 v0 post0); [|done]. rewrite Hs0. by rewrite <- !app_assoc. }
    rewrite Hs0 in Hs. apply app_inj_1 in Hs as [_ Hs]; [|lia].
    rewrite <- !app_assoc in Hs. apply app_inv_head in Hs. simpl in Hs.
    f_equal. eapply first_dq_unique; eauto using download_token_no_dq.
  - exfalso. eapply (search_from_complete _ _ _ pre (download_key ++ v ++ [dq]) post);
      [| by apply download_token_matches | exact E].
    rewrite Hs. by rewrite <- !app_assoc.
Qed.

Lemma download_url_absent html :
  (forall pre v post,
     html = pre ++ download_key ++ v ++ dq :: post -> ~ download_token v) ->
  re_search DOWNLOAD_URL_REGEX html = None.
Proof.
  intros Habs. unfold re_search.
  destruct (search_from DOWNLOAD_URL_REGEX 0 html) as [m|] eqn:E; [|done].
  apply search_from_sound in E as (pre0 & a & post0 & g & Hs0 & Hm & _).
  apply download_matches in Hm as (v0 & -> & Hv0 & _).
  exfalso. apply (Habs pre0 v0 post0); [|done]. rewrite Hs0. by rewrite <- !app_assoc.
Qed.

(** *** Unescaping *)

Lemma contains_cons_false (needle : str) c s :
  contains needle (c :: s) = false ->
  chop_prefix needle (c :: s) = None /\ contains needle s = false.
Proof.
  intros H.
  change (contains needle (c :: s))
    with (match chop_prefix needle (c :: s) with
          | Some _ => true
          | None => contains needle s
          end) in H.
  destruct (chop_prefix needle (c :: s)); [discriminate|auto].
Qed.

Lemma chop_prefix_cons a p b s :
  chop_prefix (a :: p) (b :: s) = if N.eqb a b then chop_prefix p s else None.
Proof. reflexivity. Qed.

Lemma chop_ESC_extend c part rest :
  chop_prefix ESC (c :: part) = None ->
  chop_prefix ESC ((c :: part) ++ ESC ++ rest) = None.
Proof.
  unfold ESC. norm_py.
  change ((c :: part) ++ [92; 47]%N ++ rest)
    with (c :: (part ++ [92; 47]%N ++ rest)).
  rewrite !chop_prefix_cons.
  destruct (N.eqb 92 c); [|done].
  destruct part as [|d part]; [done|].
  change ((d :: part) ++ [92; 47]%N ++ rest)
    with (d :: (part ++ [92; 47]%N ++ rest)).
  rewrite !chop_prefix_cons.
  destruct (N.eqb 47 d); done.
Qed.

Lemma replace_from_step old new c s :
  replace_from old new 0 (c :: s)
  = match chop_prefix old (c :: s) with
    | Some _ => new ++ replace_from old new (length old - 1) s
    | None => c :: replace_from old new 0 s
    end.
Proof. reflexivity. Qed.

Lemma replace_literal (part rest : str) :
  contains ESC part = false ->
  replace_from ESC SLASH 0 (part ++ ESC ++ rest)
  = part ++ SLASH ++ replace_from ESC SLASH 0 rest.
Proof.
  induction part as [|c part IH]; intros Hc.
  - reflexivity.
  - apply contains_cons_false in Hc as [Hno Hc].
    change ((c :: part) ++ ESC ++ rest) with (c :: (part ++ ESC ++ rest)).
    rewrite replace_from_step.
    change (c :: (part ++ ESC ++ rest)) with ((c :: part) ++ ESC ++ rest).
    rewrite (chop_ESC_extend _ _ _ Hno), (IH Hc). reflexivity.
Qed.

Lemma replace_plain (part : str) :
  contains ESC part = false -> replace_from ESC SLASH 0 part = part.
Proof.
  induction part as [|c part IH]; intros Hc; [reflexivity|].
  apply contains_cons_false in Hc as [Hno Hc].
  rewrite replace_from_step, Hno, (IH Hc). reflexivity.
Qed.

Lemma unescape_join (parts : list str) :
  Forall (fun part => contains ESC part = false) parts ->
  replace ESC SLASH (join ESC parts) = join SLASH parts.
Proof.
  change (replace ESC SLASH (join ESC parts))
    with (replace_from ESC SLASH 0 (join ESC parts)).
  induction 1 as [|part parts Hp Hps IH]; [reflexivity|].
  destruct parts as [|part2 parts].
  - simpl. by apply replace_plain.
  - change (join ESC (part :: part2 :: parts))
      with (part ++ ESC ++ join ESC (part2 :: parts)).
    rewrite replace_literal by done. rewrite IH. reflexivity.
Qed.

(** ** Group 1 is always set *)

Lemma title_group1 html m :
  re_search TITLE_REGEX html = Some m -> exists t, group1 m = Some t.
Proof.
  unfold re_search. intros H.
  apply search_from_sound in H as (pre & a & post & g & _ & Hm & -> & _).
  unfold TITLE_REGEX in Hm.
  apply matches_Seq_inv in Hm as (a1 & b1 & g1 & -> & H1 & H).
  apply matches_Seq_inv in H as (a2 & b2 & g2 & -> & H2 & H).
  apply matches_Str_inv in H as [-> ->].
  apply matches_Group_inv in H2 as [-> _]. simpl. eauto.
Qed.

Lemma download_group1 html m :
  re_search DOWNLOAD_URL_REGEX html = Some m -> exists v, group1 m = Some v.
Proof.
  unfold re_search. intros H.
  apply search_from_sound in H as (pre & a & post & g & _ & Hm & -> & _).
  apply download_matches in Hm as (v & _ & _ & ->). simpl. eauto.
Qed.

Lemma terabox_group1 text m :
  re_search TERABOX_URL_REGEX text = Some m -> group1 m = Some (group0 m).
Proof.
  intros H. pose proof (re_search_terabox text) as P.
  rewrite H in P. destruct P as (pre & link & post & _ & -> & _). reflexivity.
Qed.

(** ** Running the program, one statement at a time *)

Lemma fresh_file_absent (fs : gmap path N) : fs !! fresh (dom fs) = None.
Proof. apply not_elem_of_dom, is_fresh. Qed.

(** Running the monad, one statement at a time *)

Lemma run_bind {A B} (m : M A) (f : A -> M B) w :
  (m ≫= f) w
  = match m w with
    | (Ok a, w') => f a w'
    | (Raise e, w') => (Raise e, w')
    end.
Proof. reflexivity. Qed.

Lemma run_try {A} (m : M A) (h : exn -> M A) w :
  try_except m h w
  = match m w with
    | (Ok a, w') => (Ok a, w')
    | (Raise e, w') => if is_Exception e then h e w' else (Raise e, w')
    end.
Proof. reflexivity. Qed.

(** The three ways out of a [try] statement: the body returns; the body
    raises an exception the handler catches, and the handler runs; the body
    raises another exception, which goes through. *)
Lemma run_try_cases {A} (m : M A) (h : exn -> M A) w r w' :
  try_except m h w = (r, w') ->
  (exists a, m w = (Ok a, w') /\ r = Ok a)
  \/ (exists e w1, m w = (Raise e, w1) /\ is_Exception e = true
                   /\ h e w1 = (r, w'))
  \/ (exists e, m w = (Raise e, w') /\ is_Exception e = false
                /\ r = Raise e).
Proof.
  rewrite run_try. destruct (m w) as [[a|e] w1].
  - intros [= <- <-]. left. eauto.
  - destruct (is_Exception e) eqn:Ee.
    + intros H. right; left. eauto.
    + intros [= <- <-]. right; right. eauto.
Qed.

Lemma run_ret {A} (a : A) w : ret a w = (Ok a, w).
Proof. reflexivity. Qed.

Lemma run_raise {A} e w : raise (A := A) e w = (Raise e, w).
Proof. reflexivity. Qed.

Lemma run_attr {A} (a : A) w : attr (Some a) w = (Ok a, w).
Proof. reflexivity. Qed.

Lemma run_close f w : close f w = (Ok tt, w).
Proof. reflexivity. Qed.

Lemma run_session_get E url stream timeout w :
  session_get E url stream timeout w
  = match http E (trace w) url with
    | Ok r => (Ok r, log (SessionGet url headers stream timeout) true w)
    | Raise e => (Raise e, log (SessionGet url headers stream timeout) false w)
    end.
Proof. reflexivity. Qed.

Lemma run_send E c w :
  send E c w
  = match send_fails E (trace w) c with
    | None => (Ok tt, log c true w)
    | Some e => (Raise e, log c false w)
    end.
Proof. reflexivity. Qed.

Lemma run_get_chat_member E chat_id user_id w :
  get_chat_member E chat_id user_id w
  = match chat_member E (trace w) chat_id user_id with
    | Ok status => (Ok status, log (GetChatMember chat_id user_id) true w)
    | Raise e => (Raise e, log (GetChatMember chat_id user_id) false w)
    end.
Proof. reflexivity. Qed.

Lemma run_temp w :
  NamedTemporaryFile w
  = (Ok (fresh (dom (files w))),
     log (TempFile (fresh (dom (files w)))) true
       (World (<[fresh (dom (files w)) := 0%N]> (files w)) (trace w))).
Proof. reflexivity. Qed.

Lemma run_unlink p w n :
  files w !! p = Some n ->
  os_unlink p w = (Ok tt, log (Unlink p) true (World (delete p (files w)) (trace w))).
Proof. intros H. unfold os_unlink. by rewrite H. Qed.

Lemma run_getsize p w n :
  files w !! p = Some n -> os_path_getsize p w = (Ok n, w).
Proof. intros H. unfold os_path_getsize. by rewrite H. Qed.

Lemma run_open p w n :
  files w !! p = Some n -> open_rb p w = (Ok p, w).
Proof. intros H. unfold open_rb. by rewrite H. Qed.

(** The display name: the scan of the page never fails and touches
    nothing. *)
Lemma run_title html w :
  exists name,
    match re_search TITLE_REGEX html with
    | Some file_name_match =>
        g ← attr (group1 file_name_match); ret (strip g)
    | None => ret (py "terabox_file")
    end w = (Ok name, w).
Proof.
  destruct (re_search TITLE_REGEX html) as [tm|] eqn:Et; [|by eexists].
  destruct (title_group1 _ _ Et) as [t ->]. by eexists.
Qed.

Lemma write_chunks_trace f cs w :
  exists fs, write_chunks f cs w = (Ok tt, World fs (trace w))
             /\ dom fs = dom (files w).
Proof.
  revert w. induction cs as [|c cs IH]; intros w; simpl.
  - exists (files w). by destruct w.
  - rewrite run_bind. destruct (N.eqb c 0).
    + rewrite run_ret. apply IH.
    + unfold write. destruct (IH (World (alter (N.add c) f (files w)) (trace w)))
        as (fs & -> & Hd).
      exists fs. split; [done|]. simpl in Hd. rewrite Hd. apply dom_alter_L.
Qed.

Ltac world := cbn [log trace files fst snd]; rewrite <- ?app_assoc; cbn [app].
Ltac next := cbv beta iota; world.

(** ** What the fetch routine and the gate do to the world *)

Lemma fetch_try_effects E link w r w' :
  download_terabox_file_try E link w = (r, w') ->
  exists ok evs,
    trace w' = trace w ++ Ev (SessionGet link headers false 30) ok :: evs
    /\ Forall (fun e => is_fetch_call (ev_call e) = true) evs.
Proof.
  unfold download_terabox_file_try.
  rewrite run_bind, run_session_get.
  destruct (http E (trace w) link) as [page|e]; next;
    [|intros [= <- <-]; world; exists false, []; auto].
  destruct (negb _).
  { rewrite run_ret. intros [= <- <-]. world. exists true, []; auto. }
  destruct (run_title (text page) (log (SessionGet link headers false 30) true w))
    as [name Hname].
  rewrite run_bind, Hname. next.
  destruct (re_search DOWNLOAD_URL_REGEX (text page)) as [m|] eqn:Em;
    [|rewrite run_ret; intros [= <- <-]; world; exists true, []; auto].
  destruct (download_group1 _ _ Em) as [g ->].
  rewrite run_bind, run_attr. next.
  rewrite run_bind, run_temp. next.
  rewrite run_bind, run_session_get. world.
  set (p := fresh (dom (files w))).
  set (url := replace (py "\/") (py "/") g).
  destruct (http E _ url) as [resp|e]; next;
    [|intros [= <- <-]; world; exists true; eexists; split; [reflexivity|];
      repeat constructor].
  destruct (negb _).
  - rewrite run_bind, run_close. next.
    rewrite run_bind, (run_unlink _ _ 0%N) by (cbn [files]; apply lookup_insert_eq).
    next. rewrite run_ret. intros [= <- <-]. world.
    exists true; eexists; split; [reflexivity|]. repeat constructor.
  - rewrite run_bind.
    match goal with |- context [write_chunks ?f ?cs ?w0] =>
      destruct (write_chunks_trace f cs w0) as (fs & -> & _) end.
    next. rewrite run_bind.
    destruct (broken resp) as [e|].
    + rewrite run_raise. next. intros [= <- <-]. world.
      exists true; eexists; split; [reflexivity|]. repeat constructor.
    + rewrite run_ret. next. rewrite run_bind, run_close. next.
      rewrite run_ret. intros [= <- <-]. world.
      exists true; eexists; split; [reflexivity|]. repeat constructor.
Qed.

Lemma fetch_effects E link w r w' :
  download_terabox_file E link w = (r, w') ->
  exists ok evs,
    trace w' = trace w ++ Ev (SessionGet link headers false 30) ok :: evs
    /\ Forall (fun e => is_fetch_call (ev_call e) = true) evs.
Proof.
  unfold download_terabox_file. rewrite run_try.
  destruct (download_terabox_file_try E link w) as [[res|e] w1] eqn:Et;
    [|destruct (is_Exception e)]; intros [= <- <-];
    eapply fetch_try_effects; eauto.
Qed.

Lemma fetch_requests_url E link w page g :
  http E (trace w) link = Ok page ->
  status_code page = 200%Z ->
  re_search DOWNLOAD_URL_REGEX (text page) ≫= group1 = Some g ->
  exists ok evs,
    trace (download_terabox_file E link w).2
    = trace w ++ [Ev (SessionGet link headers false 30) true;
                  Ev (TempFile (fresh (dom (files w)))) true;
                  Ev (SessionGet (replace (py "\/") (py "/") g) headers true 60) ok]
              ++ evs.
Proof.
  intros Hpage H200 Hg.
  destruct (re_search DOWNLOAD_URL_REGEX (text page)) as [m|] eqn:Em; [|discriminate].
  simpl in Hg.
  unfold download_terabox_file, download_terabox_file_try.
  rewrite run_try, run_bind, run_session_get, Hpage. next.
  rewrite H200, Z.eqb_refl. cbn [negb].
  destruct (run_title (text page) (log (SessionGet link headers false 30) true w))
    as [name Hname].
  rewrite run_bind, Hname. next.
  rewrite Em, Hg, run_bind, run_attr. next.
  rewrite run_bind, run_temp. next.
  rewrite run_bind, run_session_get. world.
  set (p := fresh (dom (files w))).
  set (url := replace (py "\/") (py "/") g).
  destruct (http E _ url) as [resp|e]; next.
  2: { destruct (is_Exception e); [rewrite run_ret|]; world;
       by exists false, []. }
  destruct (negb _).
  - rewrite run_bind, run_close. next.
    rewrite run_bind, (run_unlink _ _ 0%N) by (cbn [files]; apply lookup_insert_eq).
    next. rewrite run_ret. world. by exists true, [Ev (Unlink p) true].
  - rewrite run_bind.
    match goal with |- context [write_chunks ?f ?cs ?w0] =>
      destruct (write_chunks_trace f cs w0) as (fs & -> & _) end.
    next. rewrite run_bind.
    destruct (broken resp) as [e|].
    + rewrite run_raise. next.
      destruct (is_Exception e); [rewrite run_ret|]; world; by exists true, [].
    + rewrite run_ret. next. rewrite run_bind, run_close. next.
      rewrite run_ret. world. by exists true, [].
Qed.

(** When the request for the file raises an exception the routine catches,
    the routine returns no artifact and the file it has just created stays
    where it is. *)
Lemma get_failure_keeps_file E link w page g e :
  http E (trace w) link = Ok page ->
  status_code page = 200%Z ->
  re_search DOWNLOAD_URL_REGEX (text page) ≫= group1 = Some g ->
  let temp_file := fresh (dom (files w)) in
  http E (trace w ++ [Ev (SessionGet link headers false 30) true;
                      Ev (TempFile temp_file) true])
    (replace (py "\/") (py "/") g) = Raise e ->
  is_Exception e = true ->
  exists w',
    download_terabox_file E link w = (Ok (None, None), w')
    /\ files w' = <[temp_file := 0%N]> (files w).
Proof.
  intros Hpage H200 Hg temp_file Hbad He.
  destruct (re_search DOWNLOAD_URL_REGEX (text page)) as [m|] eqn:Em; [|discriminate].
  simpl in Hg.
  unfold download_terabox_file, download_terabox_file_try.
  rewrite run_try, run_bind, run_session_get, Hpage. next.
  rewrite H200, Z.eqb_refl. cbn [negb].
  destruct (run_title (text page) (log (SessionGet link headers false 30) true w))
    as [name Hname].
  rewrite run_bind, Hname. next.
  rewrite Em, Hg, run_bind, run_attr. next.
  rewrite run_bind, run_temp. next.
  rewrite run_bind, run_session_get. world.
  fold temp_file. rewrite Hbad. next. rewrite He, run_ret.
  eexists. split; [reflexivity|]. reflexivity.
Qed.



Lemma force_subscribe_effects E update w r w' :
  force_subscribe E update w = (r, w') ->
  files w' = files w
  /\ exists evs, trace w' = trace w ++ evs
       /\ Forall (fun e => is_chat_call (ev_call e) = true) evs.
Proof.
  unfold force_subscribe, reply_text.
  destruct (CHANNEL_USERNAME E) as [[|c0 ch]|].
  1,3: rewrite run_ret; intros [= <- <-]; split; [done|];
       exists []; by rewrite app_nil_r.
  assert (Hprompt : forall w0 evs0,
    trace w0 = trace w ++ evs0 -> files w0 = files w ->
    Forall (fun e => is_chat_call (ev_call e) = true) evs0 ->
    (reply_text E (MSG_PLEASE_JOIN (c0 :: ch)) (Some (join_keyboard (c0 :: ch)));;
     ret false) w0 = (r, w') ->
    files w' = files w
    /\ exists evs, trace w' = trace w ++ evs
         /\ Forall (fun e => is_chat_call (ev_call e) = true) evs).
  { intros w0 evs0 Htr Hfs Hevs. unfold reply_text.
    rewrite run_bind, run_send.
    destruct (send_fails E _ _); next; [|rewrite run_ret];
      intros [= <- <-]; world; rewrite Htr, <- app_assoc;
      (split; [done|]); eexists; (split; [reflexivity|]);
      apply Forall_app; split; auto. }
  rewrite run_try, run_bind.
  destruct (effective_user update) as [uid|]; [rewrite run_attr|unfold attr; rewrite run_raise]; next.
  - rewrite run_bind, run_get_chat_member.
    destruct (chat_member E (trace w) _ uid) as [status|e]; next.
    + destruct (bool_decide _).
      * rewrite run_ret. intros [= <- <-]. world.
        split; [done|]. eexists. split; [reflexivity|]. repeat constructor.
      * rewrite run_bind, run_send. world.
        destruct (send_fails E _ _) as [e|]; next.
        -- destruct (is_Exception e).
           ++ eapply Hprompt; [world; reflexivity|done|].
              repeat constructor.
           ++ intros [= <- <-]. world.
              split; [done|]. eexists. split; [reflexivity|].
              repeat constructor.
        -- rewrite run_ret. intros [= <- <-]. world.
           split; [done|]. eexists. split; [reflexivity|]. repeat constructor.
    + destruct (is_Exception e).
      * eapply Hprompt; [world; reflexivity|done|].
        repeat constructor.
      * intros [= <- <-]. world.
        split; [done|]. eexists. split; [reflexivity|]. repeat constructor.
  - change (is_Exception AttributeError) with true. cbv iota.
    apply Hprompt with (evs0 := []); [by rewrite app_nil_r|done|constructor].
Qed.

(** ** The handler *)

Lemma lstrip_suffix s : exists a, s = a ++ lstrip s.
Proof.
  induction s as [|c s [a IH]]; [by exists []|]. simpl.
  destruct (isspace c); [|by exists []].
  exists (c :: a). simpl. by f_equal.
Qed.

Lemma strip_infix s : exists a b, s = a ++ strip s ++ b.
Proof.
  unfold strip, rstrip.
  destruct (lstrip_suffix s) as [a Ha].
  destruct (lstrip_suffix (rev (lstrip s))) as [b Hb].
  exists a, (rev b). rewrite <- rev_app_distr, <- Hb, rev_involutive. exact Ha.
Qed.

Lemma no_link_search text :
  (forall pre link post, text = pre ++ link ++ post -> ~ share_link link) ->
  re_search TERABOX_URL_REGEX (strip text) = None.
Proof.
  intros Hno. destruct (re_search TERABOX_URL_REGEX (strip text)) as [m|] eqn:E; [|done].
  pose proof (re_search_terabox (strip text)) as P. rewrite E in P.
  destruct P as (pre & link & post & Hs & _ & Hl & _).
  destruct (strip_infix text) as (a & b & Ht).
  exfalso. apply (Hno (a ++ pre) link (post ++ b)); [|done].
  rewrite Ht at 1. rewrite Hs. by rewrite <- !app_assoc.
Qed.

Lemma no_link_by_search text :
  re_search TERABOX_URL_REGEX text = None ->
  forall pre link post, text = pre ++ link ++ post -> ~ share_link link.
Proof.
  intros H pre link post Hs Hl. apply share_link_matches in Hl.
  eapply search_from_None; eauto.
Qed.

Lemma no_token_by_search html :
  re_search DOWNLOAD_URL_REGEX html = None ->
  forall pre v post,
    html = pre ++ download_key ++ v ++ dq :: post -> ~ download_token v.
Proof.
  intros H pre v post Hs Hv. apply download_token_matches in Hv.
  eapply (search_from_None _ _ _ H pre (download_key ++ v ++ [dq]) post); eauto.
  rewrite Hs. by rewrite <- !app_assoc.
Qed.

Lemma first_token_by_search html n :
  m_start <$> re_search DOWNLOAD_URL_REGEX html = Some n ->
  forall pre' v' post',
    html = pre' ++ download_key ++ v' ++ dq :: post' -> download_token v' ->
    n <= length pre'.
Proof.
  unfold re_search. intros H pre' v' post' Hs Hv.
  destruct (search_from DOWNLOAD_URL_REGEX 0 html) as [m|] eqn:E; [|discriminate].
  injection H as <-.
  apply search_from_sound in E as (pre & a & post & g & _ & _ & -> & _ & Hleft).
  simpl. apply (Hleft pre' (download_key ++ v' ++ [dq]) post' None (Some v')).
  - rewrite Hs. by rewrite <- !app_assoc.
  - by apply download_token_matches.
Qed.

(** From the gate to the [try] block of the handler. *)
Lemma handle_message_relay E update w w1 link :
  force_subscribe E update w = (Ok true, w1) ->
  re_search TERABOX_URL_REGEX (strip (message_text update)) ≫= group1
    = Some link ->
  send_fails E (trace w1) (ReplyText (MSG_DOWNLOADING link) None) = None ->
  handle_message E update w
  = try_except (handle_message_try E link)
      (fun e => reply_text E (MSG_ERROR e) None)
      (log (ReplyText (MSG_DOWNLOADING link) None) true w1).
Proof.
  intros Hgate Hlink Hack. unfold handle_message.
  rewrite run_bind, Hgate. next. cbn [negb].
  destruct (re_search TERABOX_URL_REGEX (strip (message_text update)))
    as [m|]; [|discriminate].
  simpl in Hlink. rewrite Hlink, run_bind, run_attr. next.
  rewrite run_bind. unfold reply_text at 1. rewrite run_send, Hack. next.
  reflexivity.
Qed.

Lemma relay_no_document E update w w1 link w3 r d f ok :
  force_subscribe E update w = (Ok true, w1) ->
  download_terabox_file E link
    (log (ReplyText (MSG_DOWNLOADING link) None) true w1) = (r, w3) ->
  Ev (ReplyDocument d f) ok ∈ trace w3 -> Ev (ReplyDocument d f) ok ∈ trace w.
Proof.
  intros Hgate Hfetch.
  destruct (force_subscribe_effects _ _ _ _ _ Hgate) as (_ & evs & Htr & Hevs).
  destruct (fetch_effects _ _ _ _ _ Hfetch) as (ok1 & evs1 & Htr1 & Hevs1).
  rewrite Htr1. world. rewrite Htr.
  rewrite !elem_of_app, !elem_of_cons.
  rewrite Forall_forall in Hevs, Hevs1.
  intros [[H|H]|[H|[H|H]]]; try done; try discriminate H.
  - apply Hevs in H. discriminate.
  - apply Hevs1 in H. discriminate.
Qed.

(** When the send of the document raises an exception the handler catches,
    the handler reports the error; the artifact stays where it is. *)
Lemma send_failure_keeps_file E update w w1 link w3 p name size e :
  force_subscribe E update w = (Ok true, w1) ->
  re_search TERABOX_URL_REGEX (strip (message_text update)) ≫= group1
    = Some link ->
  send_fails E (trace w1) (ReplyText (MSG_DOWNLOADING link) None) = None ->
  download_terabox_file E link
    (log (ReplyText (MSG_DOWNLOADING link) None) true w1)
    = (Ok (Some p, name), w3) ->
  files w3 !! p = Some size ->
  (size <= MAX_TELEGRAM_FILE_SIZE)%N ->
  send_fails E (trace w3) (ReplyDocument p name) = Some e ->
  is_Exception e = true ->
  exists r w',
    handle_message E update w = (r, w')
    /\ files w' = files w3
    /\ exists ok, trace w' = trace w3 ++ [Ev (ReplyDocument p name) false;
                                         Ev (ReplyText (MSG_ERROR e) None) ok].
Proof.
  intros Hgate Hlink Hack Hfetch Hsize Hsmall Hsend He.
  rewrite (handle_message_relay _ _ _ _ _ Hgate Hlink Hack).
  unfold handle_message_try.
  rewrite run_try, run_bind, Hfetch. next.
  rewrite run_bind, (run_getsize _ _ _ Hsize). next.
  apply N.ltb_ge in Hsmall. rewrite Hsmall.
  rewrite run_bind, (run_open _ _ _ Hsize). next.
  rewrite run_bind. unfold reply_document, reply_text.
  rewrite run_send, Hsend. next. rewrite He, run_send. world.
  destruct (send_fails E _ (ReplyText (MSG_ERROR e) None)).
  - do 2 eexists. split; [reflexivity|]. world. split; [done|]. by exists false.
  - do 2 eexists. split; [reflexivity|]. world. split; [done|]. by exists true.
Qed.

(** ** The fetch routine, case by case *)

Lemma write_chunks_total f cs : forall w m n,
  files w = <[f := n]> m ->
  write_chunks f cs w
  = (Ok tt, World (<[f := (n + total_bytes cs)%N]> m) (trace w)).
Proof.
  induction cs as [|c cs IH]; intros w m n Hw; simpl.
  - rewrite N.add_0_r, run_ret, <- Hw. by destruct w.
  - rewrite run_bind. destruct (N.eqb_spec c 0) as [->|Hc].
    + rewrite run_ret. cbv beta iota. rewrite (IH w m n Hw). reflexivity.
    + unfold write. cbv beta iota.
      rewrite (IH _ m (c + n)%N) by (cbn [files]; rewrite Hw; apply alter_insert_eq).
      cbn [trace]. do 3 f_equal. lia.
Qed.

Lemma download_group1_token html m :
  re_search DOWNLOAD_URL_REGEX html = Some m ->
  exists v, group1 m = Some v /\ download_token v.
Proof.
  unfold re_search. intros H.
  apply search_from_sound in H as (pre & a & post & g & _ & Hm & -> & _).
  apply download_matches in Hm as (v & _ & Hv & ->). simpl. eauto.
Qed.

Lemma unescape_https v :
  download_token v -> is_https (replace (py "\/") (py "/") v).
Proof.
  intros (rest & -> & _ & _).
  exists (replace_from (py "\/") (py "/") 0 rest). reflexivity.
Qed.


(** The four ways a call of the fetch routine can go: it stops at the
    page; it creates the file and fails on the request for it or on the
    stream; the request answers another status and the file is removed; the
    file is downloaded.  It raises in the first two only, and only what
    [except Exception] does not catch. *)
Lemma fetch_cases E link w r w' :
  download_terabox_file E link w = (r, w') ->
  let p := fresh (dom (files w)) in
  (exists ok,
     w' = log (SessionGet link headers false 30) ok w
     /\ (r = Ok (None, None)
         \/ exists e, r = Raise e /\ is_Exception e = false))
  \/ (exists url ok size,
        is_https url
        /\ files w' = <[p := size]> (files w)
        /\ trace w' = trace w ++ [Ev (SessionGet link headers false 30) true;
                                  Ev (TempFile p) true;
                                  Ev (SessionGet url headers true 60) ok]
        /\ (r = Ok (None, None)
            \/ exists e, r = Raise e /\ is_Exception e = false))
  \/ (r = Ok (None, None)
      /\ exists url,
           is_https url
           /\ files w' = files w
           /\ trace w' = trace w ++ [Ev (SessionGet link headers false 30) true;
                                     Ev (TempFile p) true;
                                     Ev (SessionGet url headers true 60) true;
                                     Ev (Unlink p) true])
  \/ (exists url name size,
        r = Ok (Some p, Some name)
        /\ is_https url
        /\ files w' = <[p := size]> (files w)
        /\ trace w' = trace w ++ [Ev (SessionGet link headers false 30) true;
                                  Ev (TempFile p) true;
                                  Ev (SessionGet url headers true 60) true]).
Proof.
  intros H p. revert H.
  unfold download_terabox_file, download_terabox_file_try.
  rewrite run_try, run_bind, run_session_get.
  destruct (http E (trace w) link) as [page|e]; next.
  2: { destruct (is_Exception e) eqn:Ee; [rewrite run_ret|];
         intros [= <- <-]; left; exists false; (split; [done|]);
         [by left|right; eauto]. }
  destruct (negb _).
  { rewrite run_ret. intros [= <- <-]. left; eauto. }
  destruct (run_title (text page) (log (SessionGet link headers false 30) true w))
    as [name Hname].
  rewrite run_bind, Hname. next.
  destruct (re_search DOWNLOAD_URL_REGEX (text page)) as [m|] eqn:Em;
    [|rewrite run_ret; intros [= <- <-]; left; eauto].
  destruct (download_group1_token _ _ Em) as (g & -> & Hg).
  apply unescape_https in Hg.
  rewrite run_bind, run_attr. next.
  rewrite run_bind, run_temp. next.
  rewrite run_bind, run_session_get. world. fold p.
  set (url := replace (py "\/") (py "/") g) in *.
  destruct (http E _ url) as [resp|e]; next.
  2: { destruct (is_Exception e) eqn:Ee; [rewrite run_ret|];
         intros [= <- <-]; right; left; exists url, false, 0%N; world;
         (split; [done|]); (split; [done|]); (split; [done|]);
         [by left|right; eauto]. }
  destruct (negb _).
  - rewrite run_bind, run_close. next.
    rewrite run_bind, (run_unlink _ _ 0%N) by (cbn [files]; apply lookup_insert_eq).
    next. rewrite run_ret. intros [= <- <-]. right; right; left.
    split; [done|]. exists url. world. split; [done|]. split; [|done].
    apply delete_insert_id, fresh_file_absent.
  - rewrite run_bind, (write_chunks_total _ _ _ (files w) 0%N) by reflexivity.
    next. rewrite run_bind.
    destruct (broken resp) as [e|].
    + rewrite run_raise. next.
      destruct (is_Exception e) eqn:Ee; [rewrite run_ret|];
        intros [= <- <-]; right; left; eexists url, true, _; world;
        (split; [done|]); (split; [done|]); (split; [done|]);
        [by left|right; eauto].
    + rewrite run_ret. next. rewrite run_bind, run_close. next.
      rewrite run_ret. intros [= <- <-]. right; right; right.
      eexists url, name, _. world. auto.
Qed.


(** * The claims of the specification *)

(** C1, as the code has it: the claim fails.  The temporary file the fetch
    routine creates is removed when the document is sent, when it is too
    large, and when the download answers with another status than 200 (last
    scenario below: one creation, one removal).  It is not removed when the
    send of the document raises, when the request for the file raises, or
    when the stream breaks: the handler returns, the file was created once,
    removed never, and is still in the store. *)
Theorem temp_file_left_behind :
  (let w' := (handle_message ex_env_document_fails ex_update empty_world).2 in
   creations 0%N (trace w') = 1 /\ removals 0%N (trace w') = 0
   /\ files w' !! 0%N = Some 8292%N)
  /\ (let w' := (handle_message (ex_env ex_page ex_timeout) ex_update
                   empty_world).2 in
      creations 0%N (trace w') = 1 /\ removals 0%N (trace w') = 0
      /\ files w' !! 0%N = Some 0%N)
  /\ (let w' := (handle_message (ex_env ex_page ex_broken) ex_update
                   empty_world).2 in
      creations 0%N (trace w') = 1 /\ removals 0%N (trace w') = 0
      /\ files w' !! 0%N = Some 8192%N)
  /\ (let w' := (handle_message (ex_env ex_page ex_small) ex_update
                   empty_world).2 in
      creations 0%N (trace w') = 1 /\ removals 0%N (trace w') = 1
      /\ files w' !! 0%N = None).
Proof. vm_compute. repeat split; reflexivity. Qed.

(** C2: when the page holds a well-formed download-URL token -- the quoted
    key, then as value an https URL with escaped separators and no double
    quote inside -- and [v] is the value of the first one, then the scan
    finds exactly [v]; unescaping [v] turns every escaped separator into a
    literal one (the parts between the separators are joined by a slash);
    and the fetch routine requests exactly the unescaped value, right after
    it has created the temporary file. *)
Theorem download_url_unescaped html pre v post :
  html = pre ++ download_key ++ v ++ dq :: post ->
  download_token v ->
  (forall pre' v' post',
     html = pre' ++ download_key ++ v' ++ dq :: post' -> download_token v' ->
     length pre <= length pre') ->
  re_search DOWNLOAD_URL_REGEX html ≫= group1 = Some v
  /\ (forall parts,
        v = join (py "\/") parts ->
        Forall (fun part => contains (py "\/") part = false) parts ->
        replace (py "\/") (py "/") v = join (py "/") parts)
  /\ (forall E link w page,
        http E (trace w) link = Ok page -> status_code page = 200%Z ->
        text page = html ->
        exists ok evs,
          trace (download_terabox_file E link w).2
          = trace w ++ [Ev (SessionGet link headers false 30) true;
                        Ev (TempFile (fresh (dom (files w)))) true;
                        Ev (SessionGet (replace (py "\/") (py "/") v) headers
                              true 60) ok]
                    ++ evs).
Proof.
  intros Hs Hv Hfirst.
  destruct (download_url_found _ _ _ _ Hs Hv Hfirst) as (m & Hm & Hg).
  assert (Hfound : re_search DOWNLOAD_URL_REGEX html ≫= group1 = Some v)
    by (rewrite Hm; exact Hg).
  split; [exact Hfound|]. split.
  - intros parts -> Hparts. by apply unescape_join.
  - intros E link w page Hpage H200 <-. by apply (fetch_requests_url E link w page).
Qed.


(** The page of the scenarios: the value found, and the URL requested. *)
Lemma download_url_unescaped_witness :
  re_search DOWNLOAD_URL_REGEX ex_page ≫= group1 = Some ex_value
  /\ replace (py "\/") (py "/") ex_value = ex_url.
Proof.
  assert (Hv : download_token ex_value).
  { exists (py "d.terabox.com\/file\/1").
    split; [reflexivity|]. split; [discriminate|reflexivity]. }
  assert (Hfirst : m_start <$> re_search DOWNLOAD_URL_REGEX ex_page
                   = Some (length ex_page_head))
    by (vm_compute; reflexivity).
  destruct (download_url_unescaped ex_page ex_page_head ex_value ex_page_tail
              eq_refl Hv (first_token_by_search ex_page _ Hfirst))
    as (Hfound & Hjoin & _).
  split; [exact Hfound|].
  apply (Hjoin [py "https:"; []; py "d.terabox.com"; py "file"; py "1"]).
  - reflexivity.
  - repeat constructor.
Defined.

(** C3: on every text, the link extractor returns a share link (scheme http
    or https, optional www., the host terabox.com, /s/, a non-empty token of
    letters, digits, underscore and hyphen) that occurs in the text, such
    that no share link of the text starts before it and none starting with
    it is longer; it returns nothing exactly when the text holds no share
    link.  On the text of the example it returns
    https://terabox.com/s/AbC123_-xyz. *)
Theorem link_extractor_first_match (text : str) :
  match re_search TERABOX_URL_REGEX text with
  | Some m =>
      exists pre link post,
        text = pre ++ link ++ post
        /\ m = MatchObj (length pre) link (Some link)
        /\ share_link link
        /\ forall pre' link' post',
             text = pre' ++ link' ++ post' -> share_link link' ->
             length pre <= length pre'
             /\ (length pre' = length pre -> length link' <= length link)
  | None =>
      forall pre link post, text = pre ++ link ++ post -> ~ share_link link
  end
  /\ re_search TERABOX_URL_REGEX
       (py "check this https://terabox.com/s/AbC123_-xyz please") ≫= group1
     = Some (py "https://terabox.com/s/AbC123_-xyz").
Proof.
  split; [apply re_search_terabox|vm_compute; reflexivity].
Qed.

(** C4: when the sender passes the gate and the text of the message holds
    no share link, the handler makes one more call, the reply with the
    format hint, and returns (the reply is delivered unless the chat platform
    raises, and then its exception is what the handler raises).  No file is
    touched and no HTTP request is issued: every request in the trace was
    there before the handler ran.  The fetch routine was not invoked, since
    every invocation of it starts by logging a request. *)
Theorem no_link_no_fetch E update w w1 :
  force_subscribe E update w = (Ok true, w1) ->
  (forall pre link post,
     message_text update = pre ++ link ++ post -> ~ share_link link) ->
  exists r ok,
    handle_message E update w
    = (r, log (ReplyText MSG_INVALID_LINK None) ok w1)
    /\ (r = Ok tt <-> ok = true)
    /\ (ok = true
        <-> send_fails E (trace w1) (ReplyText MSG_INVALID_LINK None) = None)
    /\ files w1 = files w
    /\ (forall url h s t ok',
          Ev (SessionGet url h s t) ok'
            ∈ trace (log (ReplyText MSG_INVALID_LINK None) ok w1) ->
          Ev (SessionGet url h s t) ok' ∈ trace w)
    /\ (forall link w0, exists ok' evs,
          trace (download_terabox_file E link w0).2
          = trace w0 ++ Ev (SessionGet link headers false 30) ok' :: evs).
Proof.
  intros Hgate Hno. apply no_link_search in Hno.
  destruct (force_subscribe_effects _ _ _ _ _ Hgate) as (Hfiles & evs & Htr & Hevs).
  unfold handle_message. rewrite run_bind, Hgate. next. cbn [negb].
  rewrite Hno. unfold reply_text. rewrite run_send.
  assert (Hfetch : forall link w0, exists ok' evs0,
            trace (download_terabox_file E link w0).2
            = trace w0 ++ Ev (SessionGet link headers false 30) ok' :: evs0).
  { intros link w0.
    destruct (download_terabox_file E link w0) as [r0 w0'] eqn:Ef.
    destruct (fetch_effects _ _ _ _ _ Ef) as (ok' & evs0 & H & _). eauto. }
  assert (Hhttp : forall ok url h s t ok',
            Ev (SessionGet url h s t) ok'
              ∈ trace (log (ReplyText MSG_INVALID_LINK None) ok w1) ->
            Ev (SessionGet url h s t) ok' ∈ trace w).
  { intros ok url h s t ok'. world. rewrite Htr.
    rewrite !elem_of_app, elem_of_cons, elem_of_nil.
    intros [[H|H]|[H|[]]]; [done| |discriminate H].
    rewrite Forall_forall in Hevs. apply Hevs in H. discriminate. }
  destruct (send_fails E (trace w1) (ReplyText MSG_INVALID_LINK None)) as [e|].
  - exists (Raise e), false. split; [done|].
    split; [split; discriminate|]. split; [split; discriminate|].
    split; [done|]. split; [apply Hhttp|apply Hfetch].
  - exists (Ok tt), true. split; [done|].
    split; [done|]. split; [done|].
    split; [done|]. split; [apply Hhttp|apply Hfetch].
Qed.


(** A message without a link, no channel configured. *)
Lemma no_link_no_fetch_witness :
  force_subscribe (ex_env ex_page ex_small) ex_update_plain empty_world
  = (Ok true, empty_world)
  /\ handle_message (ex_env ex_page ex_small) ex_update_plain empty_world
     = (Ok tt, log (ReplyText MSG_INVALID_LINK None) true empty_world).
Proof.
  split; [reflexivity|].
  assert (Hno : re_search TERABOX_URL_REGEX (message_text ex_update_plain)
                = None) by (vm_compute; reflexivity).
  destruct (no_link_no_fetch (ex_env ex_page ex_small) ex_update_plain
              empty_world empty_world eq_refl (no_link_by_search _ Hno))
    as (r & ok & Hrun & Hr & Hok & _).
  assert (ok = true) as -> by (apply Hok; reflexivity).
  assert (r = Ok tt) as -> by (apply Hr; reflexivity).
  exact Hrun.
Defined.







(** C6: when the page holds no well-formed download-URL token, the fetch
    routine returns no artifact, and all it has done is the request for the
    page: the files are what they were, no temporary file was created and
    no second request was issued. *)
Theorem fetch_without_token E link w page :
  http E (trace w) link = Ok page ->
  (forall pre v post,
     text page = pre ++ download_key ++ v ++ dq :: post -> ~ download_token v) ->
  download_terabox_file E link w
  = (Ok (None, None), log (SessionGet link headers false 30) true w).
Proof.
  intros Hpage Habs. apply download_url_absent in Habs.
  unfold download_terabox_file, download_terabox_file_try.
  rewrite run_try, run_bind, run_session_get, Hpage. next.
  destruct (negb _); [reflexivity|].
  destruct (run_title (text page) (log (SessionGet link headers false 30) true w))
    as [name Hname].
  rewrite run_bind, Hname. next. rewrite Habs. reflexivity.
Qed.


(** A page without a token. *)
Lemma fetch_without_token_witness :
  http (ex_env ex_page_plain ex_small) [] ex_link
  = Ok (Response 200 ex_page_plain [] None)
  /\ download_terabox_file (ex_env ex_page_plain ex_small) ex_link empty_world
     = (Ok (None, None),
        World ∅ [Ev (SessionGet ex_link headers false 30) true]).
Proof.
  split; [reflexivity|].
  apply (fetch_without_token (ex_env ex_page_plain ex_small) ex_link
           empty_world (Response 200 ex_page_plain [] None) eq_refl).
  apply no_token_by_search. vm_compute. reflexivity.
Defined.

(** C7: when the request for the direct-download URL answers with a status
    other than 200, the fetch routine returns no artifact; it has created
    one temporary file and removed that same file, and the files are what
    they were before the call. *)
Theorem fetch_download_not_200 E link w page g bad :
  http E (trace w) link = Ok page ->
  status_code page = 200%Z ->
  re_search DOWNLOAD_URL_REGEX (text page) ≫= group1 = Some g ->
  let download_url := replace (py "\/") (py "/") g in
  let temp_file := fresh (dom (files w)) in
  http E (trace w ++ [Ev (SessionGet link headers false 30) true;
                      Ev (TempFile temp_file) true]) download_url = Ok bad ->
  status_code bad <> 200%Z ->
  exists w',
    download_terabox_file E link w = (Ok (None, None), w')
    /\ files w' = files w
    /\ trace w' = trace w ++ [Ev (SessionGet link headers false 30) true;
                              Ev (TempFile temp_file) true;
                              Ev (SessionGet download_url headers true 60) true;
                              Ev (Unlink temp_file) true].
Proof.
  intros Hpage H200 Hg download_url temp_file Hbad Hne.
  destruct (re_search DOWNLOAD_URL_REGEX (text page)) as [m|] eqn:Em; [|discriminate].
  simpl in Hg. apply Z.eqb_neq in Hne.
  unfold download_terabox_file, download_terabox_file_try.
  rewrite run_try, run_bind, run_session_get, Hpage. next.
  rewrite H200, Z.eqb_refl. cbn [negb].
  destruct (run_title (text page) (log (SessionGet link headers false 30) true w))
    as [name Hname].
  rewrite run_bind, Hname. next.
  rewrite Em, Hg, run_bind, run_attr. next.
  rewrite run_bind, run_temp. next.
  rewrite run_bind, run_session_get. world.
  fold temp_file download_url. rewrite Hbad. next. rewrite Hne. cbn [negb].
  rewrite run_bind, run_close. next.
  rewrite run_bind, (run_unlink _ _ 0%N) by (cbn [files]; apply lookup_insert_eq).
  next. rewrite run_ret.
  eexists. split; [reflexivity|]. world. split; [|done].
  apply delete_insert_id, fresh_file_absent.
Qed.


(** The direct URL answers 404. *)
Lemma fetch_download_not_200_witness :
  exists w',
    download_terabox_file (ex_env ex_page ex_not_found) ex_link empty_world
    = (Ok (None, None), w')
    /\ files w' = ∅
    /\ trace w' = [Ev (SessionGet ex_link headers false 30) true;
                   Ev (TempFile 0%N) true;
                   Ev (SessionGet ex_url headers true 60) true;
                   Ev (Unlink 0%N) true].
Proof.
  apply (fetch_download_not_200 (ex_env ex_page ex_not_found) ex_link
           empty_world (Response 200 ex_page [] None) ex_value
           (Response 404 [] [] None)).
  - reflexivity.
  - reflexivity.
  - vm_compute. reflexivity.
  - vm_compute. reflexivity.
  - discriminate.
Defined.

(** C8, amended: the fetch routine never raises an exception of class
    Exception: what it raises, if anything, is of another class.  Whenever
    its [try] block raises an exception of class Exception the routine
    returns no artifact, that is (None, None), in the world the block left;
    an exception of another class leaves the routine as it left the block.
    The block does raise: an exception of the request for the page, for
    one, leaves it as it came. *)
Theorem fetch_catches_Exception E link w r w' :
  download_terabox_file E link w = (r, w') ->
  (forall e, r = Raise e -> is_Exception e = false)
  /\ (forall e w1,
        download_terabox_file_try E link w = (Raise e, w1) ->
        if is_Exception e then r = Ok (None, None) /\ w' = w1
        else r = Raise e /\ w' = w1)
  /\ (forall e, http E (trace w) link = Raise e ->
        download_terabox_file_try E link w
        = (Raise e, log (SessionGet link headers false 30) false w)).
Proof.
  intros H. split; [|split].
  - intros e ->.
    destruct (run_try_cases _ _ _ _ _ H)
      as [(a & _ & Hr)|[(e' & w1 & _ & _ & Hr)|(e' & _ & He & Hr)]].
    + discriminate Hr.
    + rewrite run_ret in Hr. discriminate Hr.
    + by injection Hr as ->.
  - intros e w1 Ht. revert H. unfold download_terabox_file.
    rewrite run_try, Ht. destruct (is_Exception e).
    + rewrite run_ret. by intros [= <- <-].
    + by intros [= <- <-].
  - intros e He. unfold download_terabox_file_try.
    rewrite run_bind, run_session_get, He. reflexivity.
Qed.


(** The request for the file times out: the block raises, the routine
    returns no artifact. *)
Lemma fetch_catches_Exception_witness :
  let w1 := World {[0%N := 0%N]}
              [Ev (SessionGet ex_link headers false 30) true;
               Ev (TempFile 0%N) true;
               Ev (SessionGet ex_url headers true 60) false] in
  download_terabox_file_try (ex_env ex_page ex_timeout) ex_link empty_world
  = (Raise (Exception (py "Read timed out")), w1)
  /\ download_terabox_file (ex_env ex_page ex_timeout) ex_link empty_world
     = (Ok (None, None), w1).
Proof.
  intros w1.
  assert (Ht : download_terabox_file_try (ex_env ex_page ex_timeout) ex_link
                 empty_world
               = (Raise (Exception (py "Read timed out")), w1))
    by (vm_compute; reflexivity).
  split; [exact Ht|].
  destruct (download_terabox_file (ex_env ex_page ex_timeout) ex_link empty_world)
    as [r w'] eqn:Hrun.
  destruct (fetch_catches_Exception _ _ _ _ _ Hrun) as (_ & Hc & _).
  destruct (Hc _ _ Ht) as [-> ->]. reflexivity.
Defined.

(** C8, as stated: the claim fails.  The routine catches with
    [except Exception]; when the process is interrupted during the request
    for the page, the interrupt leaves the routine. *)
Lemma fetch_propagates_interrupt :
  download_terabox_file ex_env_interrupted ex_link empty_world
  = (Raise KeyboardInterrupt,
     World ∅ [Ev (SessionGet ex_link headers false 30) false]).
Proof. reflexivity. Qed.

(** When the fetch routine returns an artifact of more than 2 GiB and the
    size-limit message is delivered, the handler removes the file and
    returns: after the fetch it makes these two calls and no other, the file
    is gone, and no document was sent. *)
Lemma oversize_removed_when_delivered E update w w1 link w3 p name size :
  force_subscribe E update w = (Ok true, w1) ->
  re_search TERABOX_URL_REGEX (strip (message_text update)) ≫= group1
    = Some link ->
  send_fails E (trace w1) (ReplyText (MSG_DOWNLOADING link) None) = None ->
  download_terabox_file E link
    (log (ReplyText (MSG_DOWNLOADING link) None) true w1)
    = (Ok (Some p, name), w3) ->
  files w3 !! p = Some size ->
  (MAX_TELEGRAM_FILE_SIZE < size)%N ->
  send_fails E (trace w3) (ReplyText MSG_TOO_LARGE None) = None ->
  exists w',
    handle_message E update w = (Ok tt, w')
    /\ trace w' = trace w3 ++ [Ev (ReplyText MSG_TOO_LARGE None) true;
                               Ev (Unlink p) true]
    /\ files w' = delete p (files w3)
    /\ files w' !! p = None
    /\ (forall d f ok,
          Ev (ReplyDocument d f) ok ∈ trace w' ->
          Ev (ReplyDocument d f) ok ∈ trace w).
Proof.
  intros Hgate Hlink Hack Hfetch Hsize Hbig Hsend.
  rewrite (handle_message_relay _ _ _ _ _ Hgate Hlink Hack).
  unfold handle_message_try.
  rewrite run_try, run_bind, Hfetch. next.
  rewrite run_bind, (run_getsize _ _ _ Hsize). next.
  apply N.ltb_lt in Hbig. rewrite Hbig.
  rewrite run_bind. unfold reply_text. rewrite run_send, Hsend. next.
  unfold os_remove. rewrite (run_unlink _ _ size) by exact Hsize. world.
  eexists. split; [reflexivity|]. world.
  split; [done|]. split; [done|]. split; [apply lookup_delete_eq|].
  intros d f ok. rewrite elem_of_app, !elem_of_cons, elem_of_nil.
  intros [H|[H|[H|[]]]]; try discriminate H.
  eapply relay_no_document; eauto.
Qed.


(** A download of 2 GiB and 8192 bytes. *)
Lemma oversize_removed_when_delivered_witness :
  let E := ex_env ex_page ex_big in
  let w3 := (download_terabox_file E ex_link (log ex_ack true empty_world)).2 in
  files w3 !! 0%N = Some 2147491840%N
  /\ exists w',
       handle_message E ex_update empty_world = (Ok tt, w')
       /\ trace w' = trace w3 ++ [Ev (ReplyText MSG_TOO_LARGE None) true;
                                  Ev (Unlink 0%N) true]
       /\ files w' !! 0%N = None.
Proof.
  intros E w3.
  assert (Hsize : files w3 !! 0%N = Some 2147491840%N)
    by (vm_compute; reflexivity).
  split; [exact Hsize|].
  destruct (oversize_removed_when_delivered E ex_update empty_world empty_world ex_link w3
              0%N (Some (py "movie.mp4")) 2147491840%N)
    as (w' & Hrun & Htrace & _ & Hgone & _).
  - reflexivity.
  - vm_compute. reflexivity.
  - reflexivity.
  - vm_compute. reflexivity.
  - exact Hsize.
  - reflexivity.
  - reflexivity.
  - exists w'. auto.
Defined.

(** C9, as the code has it: the claim fails.  For an artifact of more than
    2 GiB the next call of the handler is the size-limit reply, and no
    document is sent.  The removal of the file comes after that reply, in the
    same [try] block: when the chat platform refuses the reply the removal is
    skipped, the handler at most reports the error, and the file stays in the
    store at its full size. *)
Theorem oversize_file_left_behind E update w w1 link w3 p name size e :
  force_subscribe E update w = (Ok true, w1) ->
  re_search TERABOX_URL_REGEX (strip (message_text update)) ≫= group1
    = Some link ->
  send_fails E (trace w1) (ReplyText (MSG_DOWNLOADING link) None) = None ->
  download_terabox_file E link
    (log (ReplyText (MSG_DOWNLOADING link) None) true w1)
    = (Ok (Some p, name), w3) ->
  files w3 !! p = Some size ->
  (MAX_TELEGRAM_FILE_SIZE < size)%N ->
  send_fails E (trace w3) (ReplyText MSG_TOO_LARGE None) = Some e ->
  exists r w' evs,
    handle_message E update w = (r, w')
    /\ trace w' = trace w3 ++ Ev (ReplyText MSG_TOO_LARGE None) false :: evs
    /\ (evs = [] \/ exists ok, evs = [Ev (ReplyText (MSG_ERROR e) None) ok])
    /\ removals p (Ev (ReplyText MSG_TOO_LARGE None) false :: evs) = 0
    /\ files w' = files w3
    /\ files w' !! p = Some size
    /\ (forall d f ok,
          Ev (ReplyDocument d f) ok ∈ trace w' ->
          Ev (ReplyDocument d f) ok ∈ trace w).
Proof.
  intros Hgate Hlink Hack Hfetch Hsize Hbig Hsend.
  rewrite (handle_message_relay _ _ _ _ _ Hgate Hlink Hack).
  unfold handle_message_try.
  rewrite run_try, run_bind, Hfetch. next.
  rewrite run_bind, (run_getsize _ _ _ Hsize). next.
  apply N.ltb_lt in Hbig. rewrite Hbig.
  rewrite run_bind. unfold reply_text. rewrite run_send, Hsend. next.
  assert (Hdoc : forall d f ok evs,
            evs = [] \/ (exists ok', evs = [Ev (ReplyText (MSG_ERROR e) None) ok']) ->
            Ev (ReplyDocument d f) ok
              ∈ trace w3 ++ Ev (ReplyText MSG_TOO_LARGE None) false :: evs ->
            Ev (ReplyDocument d f) ok ∈ trace w).
  { intros d f ok evs Hevs. rewrite elem_of_app, elem_of_cons.
    intros [H|[H|H]]; [eapply relay_no_document; eauto|discriminate H|].
    destruct Hevs as [->|[ok' ->]];
      [by apply elem_of_nil in H|].
    apply elem_of_cons in H as [H|H]; [discriminate H|].
    by apply elem_of_nil in H. }
  destruct (is_Exception e).
  - rewrite run_send. world.
    destruct (send_fails E _ (ReplyText (MSG_ERROR e) None)) as [e'|];
      do 3 eexists; (split; [reflexivity|]); world;
      (split; [reflexivity|]); (split; [right; eauto|]);
      (split; [reflexivity|]); (split; [done|]); (split; [done|]);
      intros d f ok; apply Hdoc; eauto.
  - exists (Raise e). do 2 eexists. split; [reflexivity|]. world.
    split; [reflexivity|]. split; [by left|].
    split; [reflexivity|]. split; [done|]. split; [done|].
    intros d f ok. apply Hdoc. by left.
Qed.


(** A download of 2 GiB and 8192 bytes, and the size-limit message
    refused: the handler returns, and the file is still there. *)
Lemma oversize_file_left_behind_witness :
  let E := ex_env_oversize_refused in
  let w3 := (download_terabox_file E ex_link (log ex_ack true empty_world)).2 in
  files w3 !! 0%N = Some 2147491840%N
  /\ exists r w' evs,
       handle_message E ex_update empty_world = (r, w')
       /\ trace w' = trace w3 ++ Ev (ReplyText MSG_TOO_LARGE None) false :: evs
       /\ removals 0%N (Ev (ReplyText MSG_TOO_LARGE None) false :: evs) = 0
       /\ files w' !! 0%N = Some 2147491840%N.
Proof.
  intros E w3.
  assert (Hsize : files w3 !! 0%N = Some 2147491840%N)
    by (vm_compute; reflexivity).
  split; [exact Hsize|].
  destruct (oversize_file_left_behind E ex_update empty_world empty_world
              ex_link w3 0%N (Some (py "movie.mp4")) 2147491840%N
              (Exception (py "Timed out")))
    as (r & w' & evs & Hrun & Htrace & _ & Hrem & _ & Hstays & _).
  - reflexivity.
  - vm_compute. reflexivity.
  - reflexivity.
  - vm_compute. reflexivity.
  - exact Hsize.
  - reflexivity.
  - reflexivity.
  - exists r, w', evs. auto.
Defined.

(** C10: the ceiling is 2147483648 bytes and it is exclusive.  When the
    fetch routine returns an artifact of exactly that size, the next call of
    the handler is the send of the document, under the name the fetch
    routine resolved; the size-limit message is not sent; and when the
    document is delivered the handler removes the file and returns. *)
Theorem exactly_two_gib_is_sent E update w w1 link w3 p name :
  force_subscribe E update w = (Ok true, w1) ->
  re_search TERABOX_URL_REGEX (strip (message_text update)) ≫= group1
    = Some link ->
  send_fails E (trace w1) (ReplyText (MSG_DOWNLOADING link) None) = None ->
  download_terabox_file E link
    (log (ReplyText (MSG_DOWNLOADING link) None) true w1)
    = (Ok (Some p, name), w3) ->
  files w3 !! p = Some 2147483648%N ->
  MAX_TELEGRAM_FILE_SIZE = 2147483648%N
  /\ exists r w' ok evs,
       handle_message E update w = (r, w')
       /\ trace w' = trace w3 ++ Ev (ReplyDocument p name) ok :: evs
       /\ (forall ok', Ev (ReplyText MSG_TOO_LARGE None) ok'
                         ∉ Ev (ReplyDocument p name) ok :: evs)
       /\ (ok = true
           <-> send_fails E (trace w3) (ReplyDocument p name) = None)
       /\ (ok = true ->
           r = Ok tt /\ evs = [Ev (Unlink p) true]
           /\ files w' = delete p (files w3)).
Proof.
  intros Hgate Hlink Hack Hfetch Hsize.
  split; [reflexivity|].
  rewrite (handle_message_relay _ _ _ _ _ Hgate Hlink Hack).
  unfold handle_message_try.
  rewrite run_try, run_bind, Hfetch. next.
  rewrite run_bind, (run_getsize _ _ _ Hsize). next.
  change (MAX_TELEGRAM_FILE_SIZE <? 2147483648)%N with false. cbv iota.
  rewrite run_bind, (run_open _ _ _ Hsize). next.
  rewrite run_bind. unfold reply_document, reply_text. rewrite run_send.
  destruct (send_fails E (trace w3) (ReplyDocument p name)) as [e|]; next.
  - destruct (is_Exception e).
    2: { do 2 eexists. exists false, []. split; [reflexivity|]. world.
         split; [reflexivity|]. split; [|split; [split; discriminate|discriminate]].
         intros ok'. rewrite elem_of_cons, elem_of_nil.
         intros [H|[]]. discriminate H. }
    rewrite run_send. world.
    destruct (send_fails E _ (ReplyText (MSG_ERROR e) None)) as [e'|].
    + do 2 eexists. exists false. eexists. split; [reflexivity|]. world.
      split; [reflexivity|]. split; [|split; [split; discriminate|discriminate]].
      intros ok'. rewrite !elem_of_cons, elem_of_nil.
      intros [H|[H|[]]]; [discriminate H|].
      injection H as H _. unfold MSG_TOO_LARGE, MSG_ERROR in H. norm_py.
      discriminate H.
    + do 2 eexists. exists false. eexists. split; [reflexivity|]. world.
      split; [reflexivity|]. split; [|split; [split; discriminate|discriminate]].
      intros ok'. rewrite !elem_of_cons, elem_of_nil.
      intros [H|[H|[]]]; [discriminate H|].
      injection H as H _. unfold MSG_TOO_LARGE, MSG_ERROR in H. norm_py.
      discriminate H.
  - unfold os_remove. rewrite (run_unlink _ _ 2147483648%N) by exact Hsize. world.
    do 2 eexists. exists true. eexists. split; [reflexivity|]. world.
    split; [reflexivity|]. split; [|split; [done|done]].
    intros ok'. rewrite !elem_of_cons, elem_of_nil.
    intros [H|[H|[]]]; discriminate H.
Qed.


(** A download of exactly 2 GiB. *)
Lemma exactly_two_gib_is_sent_witness :
  let E := ex_env ex_page ex_exact in
  let w3 := (download_terabox_file E ex_link (log ex_ack true empty_world)).2 in
  files w3 !! 0%N = Some 2147483648%N
  /\ exists w',
       handle_message E ex_update empty_world = (Ok tt, w')
       /\ trace w' = trace w3
                     ++ [Ev (ReplyDocument 0%N (Some (py "movie.mp4"))) true;
                         Ev (Unlink 0%N) true].
Proof.
  intros E w3.
  assert (Hsize : files w3 !! 0%N = Some 2147483648%N)
    by (vm_compute; reflexivity).
  split; [exact Hsize|].
  destruct (exactly_two_gib_is_sent E ex_update empty_world empty_world
              ex_link w3 0%N (Some (py "movie.mp4")))
    as (_ & r & w' & ok & evs & Hrun & Htrace & _ & Hok & Hsent).
  - reflexivity.
  - vm_compute. reflexivity.
  - reflexivity.
  - vm_compute. reflexivity.
  - exact Hsize.
  - assert (ok = true) as -> by (apply Hok; reflexivity).
    destruct (Hsent eq_refl) as (-> & -> & _).
    exists w'. auto.
Defined.

(** * Further properties of the code *)

(** ** The handler, call by call *)

Ltac leaf :=
  intros [= <- <-]; world;
  repeat match goal with
    | H : files _ = _ |- _ => rewrite H
    | H : trace _ = _ |- _ => rewrite H
    end;
  split;
  [ intros q Hq; rewrite ?lookup_delete_ne, ?lookup_insert_ne by done; done
  | rewrite <- ?app_assoc; cbn [app]; eexists; split; [reflexivity|];
    repeat first [apply Forall_nil_2 | apply Forall_cons_2];
    cbn;
    first [ exact I | reflexivity
          | split; [reflexivity
                   |first [left; by repeat split
                          |right; by repeat split]] ] ].

Lemma handle_message_try_effects E link w2 r w' :
  handle_message_try E link w2 = (r, w') ->
  let p := fresh (dom (files w2)) in
  (forall q, q <> p -> files w' !! q = files w2 !! q)
  /\ exists evs, trace w' = trace w2 ++ evs
       /\ Forall (fun e => handler_call (Some link) p (ev_call e)) evs.
Proof.
  intros H. cbv zeta. revert H. unfold handle_message_try. rewrite run_bind.
  set (p := fresh (dom (files w2))).
  destruct (download_terabox_file E link w2) as [r3 w3] eqn:Hf.
  destruct (fetch_cases _ _ _ _ _ Hf)
    as [(ok & -> & [->|(e & -> & _)])
       |[(url & ok & size & Hu & Hfs & Ht & [->|(e & -> & _)])
       |[[-> (url & Hu & Hfs & Ht)]|(url & name & size & -> & Hu & Hfs & Ht)]]];
    try fold p in Hfs; try fold p in Ht; next; try fold p.
  - unfold reply_text. rewrite run_send.
    destruct (send_fails E _ _); leaf.
  - leaf.
  - unfold reply_text. rewrite run_send.
    destruct (send_fails E _ _); leaf.
  - leaf.
  - unfold reply_text. rewrite run_send.
    destruct (send_fails E _ _); leaf.
  - assert (Hp : files w3 !! p = Some size) by (rewrite Hfs; apply lookup_insert_eq).
    rewrite run_bind, (run_getsize _ _ _ Hp). next.
    destruct (_ <? _)%N.
    + rewrite run_bind. unfold reply_text. rewrite run_send.
      destruct (send_fails E _ _); next; [leaf|].
      unfold os_remove. rewrite (run_unlink _ _ size) by exact Hp. leaf.
    + rewrite run_bind, (run_open _ _ _ Hp). next.
      rewrite run_bind. unfold reply_document. rewrite run_send.
      destruct (send_fails E _ _); next; [leaf|].
      unfold os_remove. rewrite (run_unlink _ _ size) by exact Hp. leaf.
Qed.

Lemma chat_calls_are_handler_calls link p evs :
  Forall (fun e => is_chat_call (ev_call e) = true) evs ->
  Forall (fun e => handler_call link p (ev_call e)) evs.
Proof.
  intros H. eapply Forall_impl; [exact H|].
  intros [c ok] Hc. simpl in *.
  destruct c; try discriminate; exact I.
Qed.

Lemma handle_message_effects E update w r w' :
  handle_message E update w = (r, w') ->
  let p := fresh (dom (files w)) in
  let link := re_search TERABOX_URL_REGEX (strip (message_text update))
              ≫= group1 in
  (forall q, q <> p -> files w' !! q = files w !! q)
  /\ exists evs, trace w' = trace w ++ evs
       /\ Forall (fun e => handler_call link p (ev_call e)) evs.
Proof.
  intros H. cbv zeta. revert H. unfold handle_message. rewrite run_bind.
  destruct (force_subscribe E update w) as [rg w1] eqn:Hg.
  destruct (force_subscribe_effects _ _ _ _ _ Hg) as (Hf1 & evs1 & Ht1 & Hc1).
  apply (chat_calls_are_handler_calls
           (re_search TERABOX_URL_REGEX (strip (message_text update)) ≫= group1)
           (fresh (dom (files w)))) in Hc1.
  destruct rg as [[|]|e]; next; cbn [negb].
  3: { intros [= <- <-]. rewrite Hf1. split; [done|]. eauto. }
  2: { rewrite run_ret. intros [= <- <-]. rewrite Hf1. split; [done|]. eauto. }
  destruct (re_search TERABOX_URL_REGEX (strip (message_text update)))
    as [m|] eqn:Em.
  2: { unfold reply_text. rewrite run_send.
       destruct (send_fails E _ _); intros [= <- <-]; world;
         rewrite Hf1, Ht1, <- app_assoc; (split; [done|]);
         eexists; (split; [reflexivity|]);
         apply Forall_app; (split; [exact Hc1|]);
         by repeat constructor. }
  rewrite (terabox_group1 _ _ Em), run_bind, run_attr. next.
  cbn [mbind option_bind] in Hc1 |- *. rewrite (terabox_group1 _ _ Em) in Hc1 |- *.
  rewrite run_bind. unfold reply_text at 1. rewrite run_send.
  destruct (send_fails E _ _) as [e|]; next.
  { intros [= <- <-]. world. rewrite Hf1, Ht1, <- app_assoc. split; [done|].
    eexists. split; [reflexivity|]. apply Forall_app. split; [exact Hc1|].
    by repeat constructor. }
  rewrite run_try.
  destruct (handle_message_try E (group0 m) _) as [r4 w4] eqn:H4.
  destruct (handle_message_try_effects _ _ _ _ _ H4) as (Hf4 & evs4 & Ht4 & Hc4).
  cbn [files trace log] in Hf4, Ht4, Hc4. rewrite Hf1 in Hf4, Hc4.
  rewrite Ht1, <- !app_assoc in Ht4. cbn [app] in Ht4.
  destruct r4 as [[]|e].
  - intros [= <- <-]. split; [exact Hf4|]. rewrite Ht4.
    eexists. split; [reflexivity|]. apply Forall_app. split; [exact Hc1|].
    apply Forall_cons. split; [exact I|exact Hc4].
  - destruct (is_Exception e).
    2: { intros [= <- <-]. split; [exact Hf4|]. rewrite Ht4.
         eexists. split; [reflexivity|]. apply Forall_app. split; [exact Hc1|].
         apply Forall_cons. split; [exact I|exact Hc4]. }
    unfold reply_text. rewrite run_send.
    destruct (send_fails E _ _); intros [= <- <-]; world;
      (split; [exact Hf4|]); rewrite Ht4, <- !app_assoc; cbn [app];
      eexists; (split; [reflexivity|]);
      apply Forall_app; (split; [exact Hc1|]);
      apply Forall_cons; (split; [exact I|]);
      apply Forall_app; (split; [exact Hc4|]); by repeat constructor.
Qed.

(** ** White space around a link *)

Lemma token_char_range c : token_char c = true -> (45 <= c <= 122)%N.
Proof.
  unfold token_char, in_range.
  rewrite !orb_true_iff, !andb_true_iff, !N.leb_le, !N.eqb_eq. lia.
Qed.

Lemma printable_not_space c : (33 <= c <= 132)%N -> isspace c = false.
Proof.
  intros H. unfold isspace, in_range.
  rewrite !orb_false_iff, !andb_false_iff, !N.leb_gt, !N.eqb_neq. lia.
Qed.

(** A share link begins and ends with a character that is not white
    space. *)
Lemma share_link_ends link :
  share_link link ->
  (exists c rest, link = c :: rest /\ isspace c = false)
  /\ (exists rest d, link = rest ++ [d] /\ isspace d = false).
Proof.
  intros (scheme & www & token & -> & Hs & Hw & Hne & Htok). split.
  - exists 104%N. destruct Hs as [-> | ->]; eexists; split; reflexivity.
  - destruct token as [|d token _] using rev_ind; [done|].
    rewrite forallb_app in Htok. apply andb_true_iff in Htok as [_ Hd].
    simpl in Hd. rewrite andb_true_r in Hd. apply token_char_range in Hd.
    exists (scheme ++ py "://" ++ www ++ py "terabox.com/s/" ++ token), d.
    split; [by rewrite <- !app_assoc|]. apply printable_not_space. lia.
Qed.

Lemma forallb_rev_true (p : char -> bool) (s : str) :
  forallb p s = true -> forallb p (rev s) = true.
Proof.
  rewrite !forallb_forall. intros H c Hc. apply H. by apply in_rev.
Qed.

Lemma lstrip_split s :
  exists a, s = a ++ lstrip s /\ forallb isspace a = true.
Proof.
  induction s as [|c s (a & IH & Ha)]; [by exists []|]. simpl.
  destruct (isspace c) eqn:Hc; [|by exists []].
  exists (c :: a). simpl. rewrite Hc, Ha. split; [by f_equal|done].
Qed.

Lemma strip_split s :
  exists a b, s = a ++ strip s ++ b
              /\ forallb isspace a = true /\ forallb isspace b = true.
Proof.
  unfold strip, rstrip.
  destruct (lstrip_split s) as (a & Ha & Hwa).
  destruct (lstrip_split (rev (lstrip s))) as (b & Hb & Hwb).
  exists a, (rev b). split; [|split; [done|by apply forallb_rev_true]].
  rewrite <- rev_app_distr, <- Hb, rev_involutive. exact Ha.
Qed.

(** What begins with a character that is not white space begins after the
    white space at the head. *)
Lemma after_leading_space (ws x pre y : str) c :
  ws ++ x = pre ++ c :: y -> forallb isspace ws = true -> isspace c = false ->
  exists pre', pre = ws ++ pre'.
Proof.
  revert pre. induction ws as [|a ws IH]; intros pre E Hws Hc; [by exists pre|].
  simpl in Hws. apply andb_true_iff in Hws as [Ha Hws].
  destruct pre as [|a' pre]; simpl in E; injection E as -> E.
  - congruence.
  - destruct (IH _ E Hws Hc) as [pre' ->]. by exists pre'.
Qed.

Lemma inside_the_space (ws1 mid ws2 pre link post : str) :
  ws1 ++ mid ++ ws2 = pre ++ link ++ post ->
  forallb isspace ws1 = true -> forallb isspace ws2 = true ->
  share_link link ->
  exists pre' post',
    pre = ws1 ++ pre' /\ post = post' ++ ws2 /\ mid = pre' ++ link ++ post'.
Proof.
  intros E H1 H2 Hl.
  destruct (share_link_ends _ Hl) as [(c & rest & Hc & Hcs) (rest' & d & Hd & Hds)].
  assert (Hpre : exists pre', pre = ws1 ++ pre').
  { rewrite Hc in E. eapply after_leading_space; eauto. }
  assert (Hpost : exists post', post = post' ++ ws2).
  { apply (f_equal (@rev char)) in E.
    rewrite !rev_app_distr, Hd, rev_app_distr, <- !app_assoc in E. simpl in E.
    destruct (after_leading_space (rev ws2) _ (rev post) _ d E) as [post' Hp];
      [by apply forallb_rev_true|done|].
    exists (rev post'). apply (f_equal (@rev char)) in Hp.
    by rewrite rev_involutive, rev_app_distr, rev_involutive in Hp. }
  destruct Hpre as [pre' ->], Hpost as [post' ->].
  exists pre', post'. split; [done|]. split; [done|].
  rewrite <- !app_assoc in E. apply app_inv_head in E.
  rewrite !app_assoc in E. apply app_inv_tail in E.
  by rewrite <- !app_assoc in E.
Qed.

(** ** The title of a page *)



Lemma title_matches a g :
  matches TITLE_REGEX a None g ->
  exists t, title_at a t [] /\ g = Some t.
Proof.
  unfold TITLE_REGEX, title_at. intros H.
  apply matches_Seq_inv in H as (a1 & b1 & g1 & -> & H1 & H).
  apply matches_Seq_inv in H as (a2 & b2 & g2 & -> & H2 & H).
  apply matches_Str_inv in H1 as [-> ->].
  apply matches_Str_inv in H as [-> ->].
  apply matches_Group_inv in H2 as [-> [g' H2]].
  inversion H2; subst.
  exists a2. rewrite app_nil_r. auto.
Qed.



(** ** The further properties *)

(** X1: when the gate does not allow the sender, the handler does nothing after
    it: it returns with the world as the gate left it (or raises what the
    gate raised), so no file is touched and the only calls made are the
    gate's calls to the chat platform. *)
Theorem denied_sender_stops E update w r w1 :
  force_subscribe E update w = (r, w1) ->
  r <> Ok true ->
  handle_message E update w
  = (match r with Ok _ => Ok tt | Raise e => Raise e end, w1)
  /\ files w1 = files w
  /\ exists evs, trace w1 = trace w ++ evs
       /\ Forall (fun e => is_chat_call (ev_call e) = true) evs.
Proof.
  intros Hgate Hr. split; [|exact (force_subscribe_effects _ _ _ _ _ Hgate)].
  unfold handle_message. rewrite run_bind, Hgate.
  destruct r as [[|]|e]; [done|reflexivity|reflexivity].
Qed.

(** A sender who has left the channel. *)
Lemma denied_sender_stops_witness :
  handle_message ex_env_left ex_update empty_world
  = (Ok tt,
     World ∅ [Ev (GetChatMember (py "@mychannel") 42) true;
              Ev (ReplyText (MSG_JOIN_FIRST (py "mychannel"))
                    (Some (join_keyboard (py "mychannel")))) true]).
Proof.
  apply (denied_sender_stops ex_env_left ex_update empty_world (Ok false)).
  - reflexivity.
  - discriminate.
Defined.

(** X2: the acknowledgement is sent outside the [try] block: when the chat
    platform refuses it, the handler raises that exception, and the failed
    send is the last call it makes -- nothing is fetched. *)
Theorem undelivered_ack_aborts E update w w1 link e :
  force_subscribe E update w = (Ok true, w1) ->
  re_search TERABOX_URL_REGEX (strip (message_text update)) ≫= group1
    = Some link ->
  send_fails E (trace w1) (ReplyText (MSG_DOWNLOADING link) None) = Some e ->
  handle_message E update w
  = (Raise e, log (ReplyText (MSG_DOWNLOADING link) None) false w1).
Proof.
  intros Hgate Hlink Hack. unfold handle_message.
  rewrite run_bind, Hgate. next. cbn [negb].
  destruct (re_search TERABOX_URL_REGEX (strip (message_text update)))
    as [m|]; [|discriminate].
  simpl in Hlink. rewrite Hlink, run_bind, run_attr. next.
  rewrite run_bind. unfold reply_text at 1. rewrite run_send, Hack. reflexivity.
Qed.

(** The bot is blocked by the user. *)
Lemma undelivered_ack_aborts_witness :
  handle_message ex_env_blocked ex_update empty_world
  = (Raise (Exception (py "Forbidden: bot was blocked by the user")),
     World ∅ [Ev ex_ack false]).
Proof.
  apply (undelivered_ack_aborts ex_env_blocked ex_update empty_world
           empty_world ex_link).
  - reflexivity.
  - vm_compute. reflexivity.
  - reflexivity.
Defined.

(** X3: when the fetch routine returns no artifact, the next call of the
    handler is the send of the download-failed message, and the files stay
    as the fetch routine left them.  When the message is delivered the
    handler returns and makes no other call.  When the chat platform refuses
    it, the refusal is caught if it is of class Exception, and the handler
    sends the error message as its one further call; an exception of another
    class leaves the handler, and no further call is made. *)
Theorem failed_fetch_is_reported E update w w1 link w3 name :
  force_subscribe E update w = (Ok true, w1) ->
  re_search TERABOX_URL_REGEX (strip (message_text update)) ≫= group1
    = Some link ->
  send_fails E (trace w1) (ReplyText (MSG_DOWNLOADING link) None) = None ->
  download_terabox_file E link
    (log (ReplyText (MSG_DOWNLOADING link) None) true w1)
    = (Ok (None, name), w3) ->
  exists r w' ok evs,
    handle_message E update w = (r, w')
    /\ trace w' = trace w3 ++ Ev (ReplyText MSG_FAILED None) ok :: evs
    /\ files w' = files w3
    /\ (ok = true <-> send_fails E (trace w3) (ReplyText MSG_FAILED None) = None)
    /\ (ok = true -> r = Ok tt /\ evs = [])
    /\ (forall e,
          send_fails E (trace w3) (ReplyText MSG_FAILED None) = Some e ->
          if is_Exception e
          then exists ok', evs = [Ev (ReplyText (MSG_ERROR e) None) ok']
                           /\ (r = Ok tt <-> ok' = true)
          else evs = [] /\ r = Raise e).
Proof.
  intros Hgate Hlink Hack Hfetch.
  rewrite (handle_message_relay _ _ _ _ _ Hgate Hlink Hack).
  unfold handle_message_try.
  rewrite run_try, run_bind, Hfetch. next.
  unfold reply_text. rewrite run_send.
  destruct (send_fails E (trace w3) (ReplyText MSG_FAILED None)) as [e|]; next.
  - destruct (is_Exception e) eqn:Ee.
    + rewrite run_send. world.
      destruct (send_fails E _ (ReplyText (MSG_ERROR e) None)) as [e'|];
        do 2 eexists; exists false; eexists; (split; [reflexivity|]); world;
        (split; [reflexivity|]); (split; [done|]);
        (split; [split; discriminate|]); (split; [discriminate|]);
        intros e0 [= <-]; rewrite Ee; eexists; (split; [reflexivity|]);
        split; first [done|discriminate].
    + do 2 eexists. exists false, []. split; [reflexivity|]. world.
      split; [reflexivity|]. split; [done|].
      split; [split; discriminate|]. split; [discriminate|].
      intros e0 [= <-]. rewrite Ee. done.
  - do 2 eexists. exists true, []. split; [reflexivity|]. world.
    split; [reflexivity|]. split; [done|]. split; [done|]. split; [done|].
    discriminate.
Qed.

(** A page without a token. *)
Lemma failed_fetch_is_reported_witness :
  handle_message (ex_env ex_page_plain ex_small) ex_update empty_world
  = (Ok tt,
     World ∅ [Ev ex_ack true;
              Ev (SessionGet ex_link headers false 30) true;
              Ev (ReplyText MSG_FAILED None) true]).
Proof.
  destruct (failed_fetch_is_reported (ex_env ex_page_plain ex_small) ex_update
              empty_world empty_world ex_link
              (World ∅ [Ev ex_ack true;
                        Ev (SessionGet ex_link headers false 30) true]) None)
    as (r & w' & ok & evs & Hrun & Htrace & Hfiles & Hok & Hsent & _).
  - reflexivity.
  - vm_compute. reflexivity.
  - reflexivity.
  - vm_compute. reflexivity.
  - assert (ok = true) as -> by (apply Hok; reflexivity).
    destruct (Hsent eq_refl) as [-> ->].
    rewrite Hrun. f_equal. destruct w' as [fs tr].
    cbn [files trace] in Htrace, Hfiles. by rewrite Htrace, Hfiles.
Defined.

(** X4: when the fetch routine returns an artifact of at most 2 GiB and the
    chat platform accepts the document, the handler sends the file under the
    resolved name, then removes it, and returns; afterwards the file is
    gone. *)
Theorem file_within_limit_is_sent E update w w1 link w3 p name size :
  force_subscribe E update w = (Ok true, w1) ->
  re_search TERABOX_URL_REGEX (strip (message_text update)) ≫= group1
    = Some link ->
  send_fails E (trace w1) (ReplyText (MSG_DOWNLOADING link) None) = None ->
  download_terabox_file E link
    (log (ReplyText (MSG_DOWNLOADING link) None) true w1)
    = (Ok (Some p, name), w3) ->
  files w3 !! p = Some size ->
  (size <= MAX_TELEGRAM_FILE_SIZE)%N ->
  send_fails E (trace w3) (ReplyDocument p name) = None ->
  exists w',
    handle_message E update w = (Ok tt, w')
    /\ trace w' = trace w3 ++ [Ev (ReplyDocument p name) true;
                               Ev (Unlink p) true]
    /\ files w' = delete p (files w3)
    /\ files w' !! p = None.
Proof.
  intros Hgate Hlink Hack Hfetch Hsize Hsmall Hsend.
  rewrite (handle_message_relay _ _ _ _ _ Hgate Hlink Hack).
  unfold handle_message_try.
  rewrite run_try, run_bind, Hfetch. next.
  rewrite run_bind, (run_getsize _ _ _ Hsize). next.
  apply N.ltb_ge in Hsmall. rewrite Hsmall.
  rewrite run_bind, (run_open _ _ _ Hsize). next.
  rewrite run_bind. unfold reply_document.
  rewrite run_send, Hsend. next.
  unfold os_remove. rewrite (run_unlink _ _ size) by exact Hsize. world.
  eexists. split; [reflexivity|]. world.
  split; [done|]. split; [done|]. apply lookup_delete_eq.
Qed.

(** A download of 8292 bytes. *)
Lemma file_within_limit_is_sent_witness :
  let E := ex_env ex_page ex_small in
  let w3 := (download_terabox_file E ex_link (log ex_ack true empty_world)).2 in
  files w3 !! 0%N = Some 8292%N
  /\ exists w',
       handle_message E ex_update empty_world = (Ok tt, w')
       /\ trace w' = trace w3
                     ++ [Ev (ReplyDocument 0%N (Some (py "movie.mp4"))) true;
                         Ev (Unlink 0%N) true]
       /\ files w' !! 0%N = None.
Proof.
  intros E w3.
  assert (Hsize : files w3 !! 0%N = Some 8292%N) by (vm_compute; reflexivity).
  split; [exact Hsize|].
  destruct (file_within_limit_is_sent E ex_update empty_world empty_world
              ex_link w3 0%N (Some (py "movie.mp4")) 8292%N)
    as (w' & Hrun & Htrace & _ & Hgone).
  - reflexivity.
  - vm_compute. reflexivity.
  - reflexivity.
  - vm_compute. reflexivity.
  - exact Hsize.
  - vm_compute. discriminate.
  - reflexivity.
  - exists w'. auto.
Defined.



(** X8: the handler touches one file only, the temporary file of this
    message, whose name is new: every file that was there before is still
    there, unchanged, and every creation, removal and document sent concerns
    that one name. *)
Theorem handler_touches_own_file_only E update w r w' :
  handle_message E update w = (r, w') ->
  let p := fresh (dom (files w)) in
  (forall q n, files w !! q = Some n -> files w' !! q = Some n)
  /\ (forall q, q <> p -> files w' !! q = files w !! q)
  /\ exists evs,
       trace w' = trace w ++ evs
       /\ forall e, e ∈ evs ->
            match ev_call e with
            | TempFile q | Unlink q | ReplyDocument q _ => q = p
            | _ => True
            end.
Proof.
  intros H. destruct (handle_message_effects _ _ _ _ _ H) as (Hf & evs & Ht & Hc).
  cbv zeta. split; [|split; [exact Hf|]].
  - intros q n Hq. rewrite Hf; [exact Hq|].
    intros ->. rewrite fresh_file_absent in Hq. discriminate Hq.
  - exists evs. split; [exact Ht|]. intros e He.
    rewrite Forall_forall in Hc. specialize (Hc e He).
    destruct (ev_call e); simpl in Hc; auto.
Qed.

(** A run over a store that holds two files. *)
Lemma handler_touches_own_file_only_witness :
  let w' := (handle_message (ex_env ex_page ex_small) ex_update
               ex_world_busy).2 in
  files w' !! 0%N = Some 77%N /\ files w' !! 1%N = Some 5%N.
Proof.
  intros w'.
  destruct (handler_touches_own_file_only (ex_env ex_page ex_small) ex_update
              ex_world_busy _ _ eq_refl) as (Hkeep & _).
  split; apply Hkeep; reflexivity.
Defined.

(** X9: the handler issues HTTP requests of two kinds only, both with the
    fixed headers: a request, not streamed and within 30 seconds, for a
    share link that occurs in the text of the message; and a streamed
    request, within 60 seconds, for a URL that begins with https and two
    slashes. *)
Theorem handler_requests E update w r w' :
  handle_message E update w = (r, w') ->
  exists evs,
    trace w' = trace w ++ evs
    /\ forall url h s t ok,
         Ev (SessionGet url h s t) ok ∈ evs ->
         h = headers
         /\ ((s = false /\ t = 30%N /\ share_link url
              /\ exists pre post, message_text update = pre ++ url ++ post)
             \/ (s = true /\ t = 60%N /\ is_https url)).
Proof.
  intros H. destruct (handle_message_effects _ _ _ _ _ H) as (_ & evs & Ht & Hc).
  exists evs. split; [exact Ht|]. intros url h s t ok He.
  rewrite Forall_forall in Hc. specialize (Hc _ He). simpl in Hc.
  destruct Hc as [-> [(-> & -> & Hl)|(-> & -> & Hu)]]; split; auto.
  left. split; [done|]. split; [done|].
  destruct (re_search TERABOX_URL_REGEX (strip (message_text update)))
    as [m|] eqn:Em; [|discriminate].
  pose proof (re_search_terabox (strip (message_text update))) as P.
  rewrite Em in P. destruct P as (pre & link & post & Hs & -> & Hlink & _).
  simpl in Hl. injection Hl as ->. split; [exact Hlink|].
  destruct (strip_infix (message_text update)) as (a & b & Hab).
  exists (a ++ pre), (post ++ b). rewrite Hab at 1. rewrite Hs.
  by rewrite <- !app_assoc.
Qed.

(** The requests of a successful run. *)
Lemma handler_requests_witness :
  exists evs,
    trace (handle_message (ex_env ex_page ex_small) ex_update empty_world).2
    = [] ++ evs
    /\ forall url h s t ok,
         Ev (SessionGet url h s t) ok ∈ evs ->
         h = headers
         /\ ((s = false /\ t = 30%N /\ share_link url
              /\ exists pre post, message_text ex_update = pre ++ url ++ post)
             \/ (s = true /\ t = 60%N /\ is_https url)).
Proof.
  exact (handler_requests (ex_env ex_page ex_small) ex_update empty_world
           _ _ eq_refl).
Defined.

(** X10: the handler searches the stripped text of the message; the white
    space stripped never changes the link that is found. *)
Theorem strip_keeps_the_link (text : str) :
  re_search TERABOX_URL_REGEX (strip text) ≫= group1
  = re_search TERABOX_URL_REGEX text ≫= group1.
Proof.
  destruct (strip_split text) as (ws1 & ws2 & Ht & H1 & H2).
  pose proof (re_search_terabox text) as P.
  pose proof (re_search_terabox (strip text)) as Q.
  destruct (re_search TERABOX_URL_REGEX text) as [m|];
    destruct (re_search TERABOX_URL_REGEX (strip text)) as [m'|]; simpl.
  - destruct P as (pre & link & post & Hs & -> & Hl & Hfirst).
    destruct Q as (pre2 & link2 & post2 & Hs2 & -> & Hl2 & Hfirst2).
    simpl. f_equal.
    assert (E : ws1 ++ strip text ++ ws2 = pre ++ link ++ post) by congruence.
    destruct (inside_the_space _ _ _ _ _ _ E H1 H2 Hl)
      as (pre' & post' & -> & -> & Hmid).
    destruct (Hfirst2 pre' link post' Hmid Hl) as [Hle2 Hlong2].
    assert (E2 : text = (ws1 ++ pre2) ++ link2 ++ (post2 ++ ws2)).
    { rewrite Ht at 1. rewrite Hs2. by rewrite <- !app_assoc. }
    destruct (Hfirst _ _ _ E2 Hl2) as [Hle Hlong].
    rewrite !length_app in Hle, Hlong.
    assert (Hp : length pre' = length pre2) by lia.
    rewrite Hmid in Hs2. apply app_inj_1 in Hs2 as [-> Hs2]; [|done].
    assert (Hlen : length link2 = length link).
    { apply Nat.le_antisymm; [apply Hlong; lia|apply Hlong2; done]. }
    apply app_inj_1 in Hs2 as [-> _]; done.
  - exfalso. destruct P as (pre & link & post & Hs & _ & Hl & _).
    assert (E : ws1 ++ strip text ++ ws2 = pre ++ link ++ post) by congruence.
    destruct (inside_the_space _ _ _ _ _ _ E H1 H2 Hl)
      as (pre' & post' & _ & _ & Hmid).
    exact (Q _ _ _ Hmid Hl).
  - exfalso. destruct Q as (pre2 & link2 & post2 & Hs2 & _ & Hl2 & _).
    apply (P (ws1 ++ pre2) link2 (post2 ++ ws2)); [|done].
    rewrite Ht at 1. rewrite Hs2. by rewrite <- !app_assoc.
  - reflexivity.
Qed.

(** X11: when the request for the page answers with another status than 200,
    or raises an exception of class Exception, the fetch routine returns no
    artifact and has done nothing but that one request.  An exception of
    another class leaves the routine, also after that one request only. *)
Theorem fetch_stops_at_page E link w ok r :
  (exists page, http E (trace w) link = Ok page
                /\ status_code page <> 200%Z /\ ok = true
                /\ r = Ok (None, None))
  \/ (exists e, http E (trace w) link = Raise e /\ ok = false
                /\ r = if is_Exception e then Ok (None, None) else Raise e) ->
  download_terabox_file E link w
  = (r, log (SessionGet link headers false 30) ok w).
Proof.
  unfold download_terabox_file, download_terabox_file_try.
  rewrite run_try, run_bind, run_session_get.
  intros [(page & -> & Hne & -> & ->)|(e & -> & -> & ->)]; next.
  - apply Z.eqb_neq in Hne. rewrite Hne. reflexivity.
  - destruct (is_Exception e); reflexivity.
Qed.

(** A link the server does not answer. *)
Lemma fetch_stops_at_page_witness :
  download_terabox_file (ex_env ex_page ex_small) (py "https://terabox.com/s/gone")
    empty_world
  = (Ok (None, None),
     World ∅ [Ev (SessionGet (py "https://terabox.com/s/gone") headers false 30)
                false]).
Proof.
  apply (fetch_stops_at_page (ex_env ex_page ex_small)
           (py "https://terabox.com/s/gone") empty_world false).
  right. exists (Exception (py "Connection refused")).
  split; [reflexivity|]. split; reflexivity.
Defined.



(** X13: the fetch routine returns either no artifact, and then no file but
    possibly the new temporary one differs from before, or a path together
    with a name, and then the path is the new temporary file, which did not
    exist before and exists now.  When it does not return, what it raises is
    not of class Exception, and again no file but possibly the new temporary
    one differs from before. *)
Theorem fetch_result_shape E link w r w' :
  download_terabox_file E link w = (r, w') ->
  let p := fresh (dom (files w)) in
  (r = Ok (None, None) /\ forall q, files w' !! q = files w !! q \/ q = p)
  \/ (exists name size,
        r = Ok (Some p, Some name)
        /\ files w !! p = None
        /\ files w' = <[p := size]> (files w))
  \/ (exists e,
        r = Raise e /\ is_Exception e = false
        /\ forall q, files w' !! q = files w !! q \/ q = p).
Proof.
  intros H p.
  assert (Hnew : forall size q,
            files w' = <[p := size]> (files w) ->
            files w' !! q = files w !! q \/ q = p).
  { intros size q ->.
    destruct (decide (q = p)) as [->|Hq]; [by right|left].
    by rewrite lookup_insert_ne. }
  destruct (fetch_cases _ _ _ _ _ H)
    as [(ok & -> & [->|(e & -> & He)])
       |[(url & ok & size & _ & Hf & _ & [->|(e & -> & He)])
        |[[-> (url & _ & Hf & _)]|(url & name & size & -> & _ & Hf & _)]]].
  - left. split; [done|]. intros q. by left.
  - right; right. exists e. split; [done|]. split; [done|]. intros q. by left.
  - left. split; [done|]. intros q. by apply (Hnew size).
  - right; right. exists e. split; [done|]. split; [done|].
    intros q. by apply (Hnew size).
  - left. split; [done|]. intros q. rewrite Hf. by left.
  - right; left. exists name, size.
    split; [done|]. split; [apply fresh_file_absent|done].
Qed.

(** The small download of the scenarios. *)
Lemma fetch_result_shape_witness :
  exists name size,
    (download_terabox_file (ex_env ex_page ex_small) ex_link empty_world).1
    = Ok (Some 0%N, Some name)
    /\ files (download_terabox_file (ex_env ex_page ex_small) ex_link
                empty_world).2
       = <[0%N := size]> ∅.
Proof.
  destruct (fetch_result_shape (ex_env ex_page ex_small) ex_link empty_world
              _ _ eq_refl) as [[H _]|[(name & size & Hr & _ & Hf)|(e & H & _)]].
  - vm_compute in H. discriminate H.
  - exists name, size. split; [exact Hr|exact Hf].
  - vm_compute in H. discriminate H.
Defined.

(** X14: the first call of the fetch routine is the request for the page;
    after it the routine issues at most one more request and creates at
    most one temporary file.  So there are one or two requests, and never a
    file without a request before it. *)
Theorem fetch_budget E link w r w' :
  download_terabox_file E link w = (r, w') ->
  exists ok rest,
    trace w' = trace w ++ Ev (SessionGet link headers false 30) ok :: rest
    /\ length (filter is_request rest) <= 1
    /\ length (filter is_tempfile rest) <= 1.
Proof.
  intros H.
  destruct (fetch_cases _ _ _ _ _ H)
    as [(ok & -> & _)|[(url & ok & size & _ & _ & Ht & _)
       |[[_ (url & _ & _ & Ht)]|(url & name & size & _ & _ & _ & Ht)]]];
    do 2 eexists; (split; [first [exact Ht|reflexivity]|]); vm_compute; lia.
Qed.

(** The direct URL answers 404. *)
Lemma fetch_budget_witness :
  exists ok rest,
    trace (download_terabox_file (ex_env ex_page ex_not_found) ex_link
             empty_world).2
    = [] ++ Ev (SessionGet ex_link headers false 30) ok :: rest
    /\ length (filter is_request rest) <= 1
    /\ length (filter is_tempfile rest) <= 1.
Proof.
  exact (fetch_budget (ex_env ex_page ex_not_found) ex_link empty_world
           _ _ eq_refl).
Defined.


(** X16: the gate asks the chat platform about membership at most once per
    message, and then about the sender of the message in the configured
    channel, addressed by its handle; it asks nothing when no channel is
    configured or the sender is unknown. *)
Theorem gate_queries_once E update w r w' :
  force_subscribe E update w = (r, w') ->
  exists evs,
    trace w' = trace w ++ evs
    /\ filter is_query evs
       = match CHANNEL_USERNAME E, effective_user update with
         | Some (c :: channel), Some user_id =>
             [Ev (GetChatMember (py "@" ++ c :: channel) user_id)
                (match chat_member E (trace w) (py "@" ++ c :: channel) user_id
                 with Ok _ => true | Raise _ => false end)]
         | _, _ => []
         end.
Proof.
  unfold force_subscribe, reply_text.
  destruct (CHANNEL_USERNAME E) as [[|c0 ch]|].
  1,3: rewrite run_ret; intros [= <- <-]; exists []; by rewrite app_nil_r.
  rewrite run_try, run_bind.
  destruct (effective_user update) as [uid|];
    [rewrite run_attr|unfold attr; rewrite run_raise]; next.
  - rewrite run_bind, run_get_chat_member.
    destruct (chat_member E (trace w) _ uid) as [status|e]; next.
    + destruct (bool_decide _).
      * rewrite run_ret. intros [= <- <-]. world. by eexists.
      * rewrite run_bind, run_send. world.
        destruct (send_fails E _ _) as [e|]; next.
        -- destruct (is_Exception e);
             [|intros [= <- <-]; world; by eexists].
           rewrite run_bind, run_send. world.
           destruct (send_fails E _ _); next; [|rewrite run_ret];
             intros [= <- <-]; world; by eexists.
        -- rewrite run_ret. intros [= <- <-]. world. by eexists.
    + destruct (is_Exception e);
        [|intros [= <- <-]; world; by eexists].
      rewrite run_bind, run_send. world.
      destruct (send_fails E _ _); next; [|rewrite run_ret];
        intros [= <- <-]; world; by eexists.
  - change (is_Exception AttributeError) with true. cbv iota.
    rewrite run_bind, run_send.
    destruct (send_fails E _ _); next; [|rewrite run_ret];
      intros [= <- <-]; world; by eexists.
Qed.

(** A sender who has left the channel. *)
Lemma gate_queries_once_witness :
  exists evs,
    trace (force_subscribe ex_env_left ex_update empty_world).2 = [] ++ evs
    /\ filter is_query evs = [Ev (GetChatMember (py "@mychannel") 42) true].
Proof.
  exact (gate_queries_once ex_env_left ex_update empty_world _ _ eq_refl).
Defined.
